(** * Device registry: the repository over a shelf, and relational decoration

    A shallow embedding of [device_registry/__init__.py].

    The program keeps its records in a [shelve] shelf opened with the
    default [writeback=False]: the shelf maps string keys to pickled
    values.  [shelf[key] = obj] stores a snapshot of [obj]; [shelf[key]]
    unpickles the stored bytes into a {e new} dict object on every access.
    Python dicts are mutable and are passed by reference, and the two
    decorators mutate the dict they are handed, so the embedding keeps two
    stores apart:

    - [shelf]: the persisted mapping, key to pickled record;
    - [heap]:  the dict objects alive during a request, addressed by
               location; a value read from the shelf is allocated here.

    Every operation is a computation in a state-and-exception monad over
    the pair of stores. *)

From stdpp Require Import base option list strings gmap fin_maps.

Open Scope string_scope.
Open Scope list_scope.

(** ** Python values *)

(** Objects on the heap are addressed by their position in it. *)
Definition loc := nat.

(** The values a dict field holds in this program: [None], a [str], a
    reference to another dict (the embedded [room]) or a list of such
    references (the embedded [devices]). *)
Inductive pyval :=
  | VNone
  | VStr (s : string)
  | VRef (l : loc)
  | VList (ls : list loc).

(** The values of a persisted field.  Records reach the shelf from
    [reqparse]'s parsed arguments only, whose values are [str] or [None]. *)
Inductive sval :=
  | SNone
  | SStr (s : string).

#[global] Instance pyval_eq_dec : EqDecision pyval.
Proof. solve_decision. Defined.

#[global] Instance sval_eq_dec : EqDecision sval.
Proof. solve_decision. Defined.

(** A persisted record, and a dict object on the heap. *)
Abbreviation record := (gmap string sval).
Abbreviation pyobj := (gmap string pyval).

Definition unpickle_val (v : sval) : pyval :=
  match v with
  | SNone => VNone
  | SStr s => VStr s
  end.

(** [pickle.loads]: a record read from the shelf becomes a dict with the
    same fields. *)
Definition unpickle (r : record) : pyobj := unpickle_val <$> r.

(** Python's [a == b].  Its left operand is, at every use in the program,
    a field of a freshly unpickled record ([None] or a [str]); such a value
    is equal to another [None] or to an equal [str] and to nothing else. *)
Definition py_eq (a b : pyval) : bool :=
  match a, b with
  | VNone, VNone => true
  | VStr x, VStr y => bool_decide (x = y)
  | _, _ => false
  end.

(** ** The state and the monad *)

Record state := State {
  shelf : gmap string (gmap string sval);
  heap : list (gmap string pyval)
}.

(** The exceptions the modelled code raises.  [BadRef] is not a Python
    exception: it guards a location that is not on the heap, which no
    reference a program holds can be. *)
Inductive exn :=
  | KeyError (k : string)
  | TypeError
  | BadRef.

(** A computation ends with a value or with an exception; the state
    reached is kept in both cases (what was written before a raise stays
    written). *)
Inductive outcome (A : Type) :=
  | Ok (a : A) (σ : state)
  | Raise (e : exn) (σ : state).
Arguments Ok {A} a σ.
Arguments Raise {A} e σ.

Definition final {A} (o : outcome A) : state :=
  match o with
  | Ok _ σ => σ
  | Raise _ σ => σ
  end.

Definition M (A : Type) : Type := state → outcome A.

Definition ret {A} (a : A) : M A := λ σ, Ok a σ.

Definition raise {A} (e : exn) : M A := λ σ, Raise e σ.

Definition bind {A B} (m : M A) (k : A → M B) : M B :=
  λ σ, match m σ with
       | Ok a σ' => k a σ'
       | Raise e σ' => Raise e σ'
       end.

Notation "'do' x <- m ; k" := (bind m (λ x, k))
  (at level 10, x name, m at level 100, k at level 200,
   format "'[v' 'do'  x  <-  m ; '/' k ']'").
Notation "m ;; k" := (bind m (λ _, k))
  (at level 100, k at level 200, right associativity,
   format "'[v' m ;; '/' k ']'").

(** ** The shelf ([shelve.Shelf], [writeback=False]) *)

(** [key in shelf] *)
Definition shelf_contains (key : string) : M bool :=
  λ σ, Ok (bool_decide (is_Some (shelf σ !! key))) σ.

(** [shelf[key]]: unpickles into a new object. *)
Definition shelf_getitem (key : string) : M loc :=
  λ σ, match shelf σ !! key with
       | None => Raise (KeyError key) σ
       | Some r => Ok (length (heap σ))
                      (State (shelf σ) (heap σ ++ [unpickle r]))
       end.

(** [shelf[key] = obj] *)
Definition shelf_setitem (key : string) (obj : record) : M unit :=
  λ σ, Ok () (State (<[key := obj]> (shelf σ)) (heap σ)).

(** [del shelf[key]] *)
Definition shelf_delitem (key : string) : M unit :=
  λ σ, match shelf σ !! key with
       | None => Raise (KeyError key) σ
       | Some _ => Ok () (State (delete key (shelf σ)) (heap σ))
       end.

(** [list(shelf.keys())]: the keys, in the order the shelf enumerates
    them (an order the program does not control). *)
Definition shelf_keys : M (list string) :=
  λ σ, Ok (map_to_list (shelf σ)).*1 σ.

(** ** Dict objects on the heap *)

(** [obj[field]] *)
Definition obj_getitem (l : loc) (field : string) : M pyval :=
  λ σ, match heap σ !! l with
       | None => Raise BadRef σ
       | Some o => match o !! field with
                   | None => Raise (KeyError field) σ
                   | Some v => Ok v σ
                   end
       end.

(** [obj[field] = v] *)
Definition obj_setitem (l : loc) (field : string) (v : pyval) : M unit :=
  λ σ, match heap σ !! l with
       | None => Raise BadRef σ
       | Some o => Ok () (State (shelf σ) (<[l := <[field := v]> o]> (heap σ)))
       end.

(** [del obj[field]] *)
Definition obj_delitem (l : loc) (field : string) : M unit :=
  λ σ, match heap σ !! l with
       | None => Raise BadRef σ
       | Some o => match o !! field with
                   | None => Raise (KeyError field) σ
                   | Some _ =>
                       Ok () (State (shelf σ) (<[l := delete field o]> (heap σ)))
                   end
       end.

(** ** Repository *)

Record Repository := { prefix : string }.

(** [Repository.__init__(shelf, prefix)]: [self.prefix = prefix + ':'].
    The shelf is the one of the state. *)
Definition Repository_init (name : string) : Repository :=
  {| prefix := name +:+ ":" |}.

(** The loop of [find_all]: [objects] accumulates, in key order. *)
Fixpoint find_all_loop (pre : string) (keys : list string)
    (objects : list loc) : M (list loc) :=
  match keys with
  | [] => ret objects
  | key :: keys' =>
      if String.prefix pre key then
        do o <- shelf_getitem key;
        find_all_loop pre keys' (objects ++ [o])
      else find_all_loop pre keys' objects
  end.

Definition find_all (repo : Repository) : M (list loc) :=
  do keys <- shelf_keys;
  find_all_loop (prefix repo) keys [].

(** [find]: Python's [None] is [None] here, an object is [Some] of its
    location. *)
Definition find (repo : Repository) (identifier : string) : M (option loc) :=
  let identifier := prefix repo +:+ identifier in
  do present <- shelf_contains identifier;
  if negb present then ret None
  else do o <- shelf_getitem identifier; ret (Some o).

(** The loop of [find_by]. *)
Fixpoint find_by_loop (key : string) (value : pyval) (objs : list loc)
    (objects : list loc) : M (list loc) :=
  match objs with
  | [] => ret objects
  | obj :: objs' =>
      do v <- obj_getitem obj key;
      if py_eq v value then find_by_loop key value objs' (objects ++ [obj])
      else find_by_loop key value objs' objects
  end.

Definition find_by (repo : Repository) (key : string) (value : pyval)
    : M (list loc) :=
  do objs <- find_all repo;
  find_by_loop key value objs [].

(** [save]: [obj['identifier']] raises [KeyError] when the field is
    missing, and [self.prefix + None] raises [TypeError]. *)
Definition save (repo : Repository) (obj : record) : M unit :=
  match obj !! "identifier" with
  | None => raise (KeyError "identifier")
  | Some SNone => raise TypeError
  | Some (SStr i) => shelf_setitem (prefix repo +:+ i) obj
  end.

Definition delete_ (repo : Repository) (identifier : string) : M unit :=
  shelf_delitem (prefix repo +:+ identifier).

(** ** Decorators *)

(** [decorate_with_room(room_repository, device)].  The right-hand side
    [room_repository.find(device['room_identifier'])] is evaluated first;
    [find] concatenates its argument to the prefix, a [TypeError] unless
    the argument is a [str]. *)
Definition decorate_with_room (room_repository : Repository) (device : loc)
    : M unit :=
  do rid <- obj_getitem device "room_identifier";
  do room <- match rid with
             | VStr s => find room_repository s
             | _ => raise TypeError
             end;
  obj_setitem device "room"
    (match room with Some l => VRef l | None => VNone end);;
  obj_delitem device "room_identifier".

(** [for device in devices: del device['room_identifier']] *)
Fixpoint strip_room_identifier (devices : list loc) : M unit :=
  match devices with
  | [] => ret ()
  | device :: devices' =>
      obj_delitem device "room_identifier";;
      strip_room_identifier devices'
  end.

(** [decorate_with_devices(device_repository, room)] *)
Definition decorate_with_devices (device_repository : Repository) (room : loc)
    : M unit :=
  do ident <- obj_getitem room "identifier";
  do devices <- find_by device_repository "room_identifier" ident;
  strip_room_identifier devices;;
  obj_setitem room "devices" (VList devices).

(** ** Resources *)

(** The two repositories of a request ([get_device_repo], [get_room_repo]);
    both are built over the one shelf of [get_db]. *)
Definition device_repo : Repository := Repository_init "device".
Definition room_repo : Repository := Repository_init "room".

(** What a handler returns: a body and an HTTP status. *)
Inductive body :=
  | Empty
  | Message (message : string)
  | MessageData (message : string) (data : loc).

Definition response : Type := body * nat.

(** [args[field]] on the parsed arguments, used as a [str]. *)
Definition args_str (args : record) (field : string) : M string :=
  match args !! field with
  | None => raise (KeyError field)
  | Some SNone => raise TypeError
  | Some (SStr s) => ret s
  end.

(** [DeviceList.post], from the parsed arguments on ([reqparse] has made
    sure the five fields are present).  The [print] to [stderr] is left
    out. *)
Definition DeviceList_post (args : record) : M response :=
  do rid <- args_str args "room_identifier";
  do room <- find room_repo rid;
  match room with
  | None => ret (Message "Room does not exist", 400)
  | Some _ =>
      save device_repo args;;
      do ident <- args_str args "identifier";
      do device <- find device_repo ident;
      match device with
      | None => raise TypeError
      | Some d =>
          decorate_with_room room_repo d;;
          ret (MessageData "Device registered" d, 201)
      end
  end.

(** [Device.delete] *)
Definition Device_delete (identifier : string) : M response :=
  do device <- find device_repo identifier;
  match device with
  | None => ret (Message "Device not found", 404)
  | Some _ =>
      delete_ device_repo identifier;;
      ret (Empty, 204)
  end.

(** [Room.delete]; [if devices:] is true of a non-empty list. *)
Definition Room_delete (identifier : string) : M response :=
  do room <- find room_repo identifier;
  match room with
  | None => ret (Message "Room not found", 404)
  | Some _ =>
      do devices <- find_by device_repo "room_identifier" (VStr identifier);
      match devices with
      | _ :: _ => ret (Message "Cannot delete a room that has devices", 400)
      | [] =>
          delete_ room_repo identifier;;
          ret (Empty, 204)
      end
  end.

(** The body of a response that lists objects. *)
Inductive list_body :=
  | MessageList (message : string) (data : list loc).

Definition list_response : Type := list_body * nat.

(** [for device in devices: decorate_with_room(get_room_repo(), device)] *)
Fixpoint decorate_all_with_room (devices : list loc) : M unit :=
  match devices with
  | [] => ret ()
  | device :: devices' =>
      decorate_with_room room_repo device;;
      decorate_all_with_room devices'
  end.

(** [DeviceList.get] *)
Definition DeviceList_get : M list_response :=
  do devices <- find_all device_repo;
  decorate_all_with_room devices;;
  ret (MessageList "Retrieved all devices" devices, 200).

(** [Device.get] *)
Definition Device_get (identifier : string) : M response :=
  do device <- find device_repo identifier;
  match device with
  | None => ret (Message "Device not found", 404)
  | Some d =>
      decorate_with_room room_repo d;;
      ret (MessageData "Device found" d, 200)
  end.

(** [for room in rooms: decorate_with_devices(get_device_repo(), room)] *)
Fixpoint decorate_all_with_devices (rooms : list loc) : M unit :=
  match rooms with
  | [] => ret ()
  | room :: rooms' =>
      decorate_with_devices device_repo room;;
      decorate_all_with_devices rooms'
  end.

(** [RoomList.get] *)
Definition RoomList_get : M list_response :=
  do rooms <- find_all room_repo;
  decorate_all_with_devices rooms;;
  ret (MessageList "Retrieved all rooms" rooms, 200).

(** [RoomList.post], from the parsed arguments on; the [print] to
    [stderr] is left out. *)
Definition RoomList_post (args : record) : M response :=
  save room_repo args;;
  do ident <- args_str args "identifier";
  do room <- find room_repo ident;
  match room with
  | None => raise TypeError
  | Some r =>
      decorate_with_devices device_repo r;;
      ret (MessageData "Room registered" r, 201)
  end.

(** [Room.get] *)
Definition Room_get (identifier : string) : M response :=
  do room <- find room_repo identifier;
  match room with
  | None => ret (Message "Room not found", 404)
  | Some r =>
      decorate_with_devices device_repo r;;
      ret (MessageData "Room found" r, 200)
  end.

(** The routes of [api.add_resource]: a request is a method on a
    resource, with the identifier of the URL or the parsed arguments. *)
Inductive request :=
  | GET_devices
  | POST_devices (args : record)
  | GET_device (identifier : string)
  | DELETE_device (identifier : string)
  | GET_rooms
  | POST_rooms (args : record)
  | GET_room (identifier : string)
  | DELETE_room (identifier : string).

(** The state a request leaves behind, whether its handler returns or
    raises: what was written to the shelf before a raise stays written. *)
Definition handle (rq : request) (σ : state) : state :=
  match rq with
  | GET_devices => final (DeviceList_get σ)
  | POST_devices args => final (DeviceList_post args σ)
  | GET_device identifier => final (Device_get identifier σ)
  | DELETE_device identifier => final (Device_delete identifier σ)
  | GET_rooms => final (RoomList_get σ)
  | POST_rooms args => final (RoomList_post args σ)
  | GET_room identifier => final (Room_get identifier σ)
  | DELETE_room identifier => final (Room_delete identifier σ)
  end.

(** Requests served one after the other. *)
Definition serve (rqs : list request) (σ : state) : state :=
  foldl (λ σ rq, handle rq σ) σ rqs.

(** * Specification-side definitions *)

(** The entries of a shelf that belong to a repository: those whose key
    starts with its prefix, in the order the shelf enumerates them. *)
Definition in_collection (repo : Repository) (kr : string * record) : Prop :=
  String.prefix (prefix repo) kr.1 = true.

#[global] Instance in_collection_dec repo kr : Decision (in_collection repo kr).
Proof. unfold in_collection. apply _. Defined.

Definition collection (repo : Repository) (sh : gmap string record)
    : list (string * record) :=
  filter (in_collection repo) (map_to_list sh).

(** [r[field] == value] on a persisted record, as the unpickled field
    compares. *)
Definition field_is (field : string) (value : pyval) (r : record) : Prop :=
  unpickle_val <$> r !! field = Some value.

#[global] Instance field_is_dec field value r : Decision (field_is field value r).
Proof. unfold field_is. apply _. Defined.

(** [ls] are objects holding the fields of the records [rs], one for one. *)
Definition holds (σ : state) (ls : list loc) (rs : list record) : Prop :=
  Forall2 (λ l r, heap σ !! l = Some (unpickle r)) ls rs.

(** The records [find_all] hands back on [σ]: the fields of the objects
    it returns, read on the state it leaves. *)
Definition find_all_result (repo : Repository) (σ : state)
    : option (list pyobj) :=
  match find_all repo σ with
  | Ok ls σ' => mapM (λ l, heap σ' !! l) ls
  | Raise _ _ => None
  end.

(** The state [find_all] leaves: the shelf as it was, and one new object
    on the heap for each record of the collection. *)
Definition scanned (repo : Repository) (σ : state) : state :=
  State (shelf σ)
        (heap σ ++ (unpickle <$> (collection repo (shelf σ)).*2)).

(** Every record of the collection has the field. *)
Definition all_have (repo : Repository) (field : string)
    (sh : gmap string record) : Prop :=
  map_Forall (λ k r, String.prefix (prefix repo) k = true →
                     is_Some (r !! field)) sh.

#[global] Instance all_have_dec repo field sh : Decision (all_have repo field sh).
Proof. unfold all_have. apply _. Defined.

(** No device record refers to the room [rid]: each one has a
    [room_identifier], and it is not [rid]. *)
Definition unreferenced (rid : string) (sh : gmap string record) : Prop :=
  map_Forall (λ k r, String.prefix (prefix device_repo) k = true →
                     is_Some (r !! "room_identifier") ∧
                     r !! "room_identifier" ≠ Some (SStr rid)) sh.

#[global] Instance unreferenced_dec rid sh : Decision (unreferenced rid sh).
Proof. unfold unreferenced. apply _. Defined.

(** A computation that does not write the shelf. *)
Definition shelf_preserving {A} (m : M A) : Prop :=
  ∀ σ, shelf (final (m σ)) = shelf σ.

(** A record stored under [k] carries, as its identifier, what follows the
    prefix in [k]. *)
Definition keyed (repo : Repository) (k : string) (r : record) : Prop :=
  match r !! "identifier" with
  | Some (SStr i) => k = prefix repo +:+ i
  | _ => False
  end.

#[global] Instance keyed_dec repo k r : Decision (keyed repo k r).
Proof. unfold keyed. destruct (r !! "identifier") as [[|i]|]; apply _. Defined.

(** Every record of the collection is stored under the key of its
    identifier. *)
Definition well_keyed (repo : Repository) (sh : gmap string record) : Prop :=
  map_Forall (λ k r, String.prefix (prefix repo) k = true → keyed repo k r) sh.

#[global] Instance well_keyed_dec repo sh : Decision (well_keyed repo sh).
Proof. unfold well_keyed. apply _. Defined.

(** The device record [d] names a room that is stored. *)
Definition refers_to_room (sh : gmap string record) (d : record) : Prop :=
  match d !! "room_identifier" with
  | Some (SStr rid) => is_Some (sh !! (prefix room_repo +:+ rid))
  | _ => False
  end.

#[global] Instance refers_to_room_dec sh d : Decision (refers_to_room sh d).
Proof.
  unfold refers_to_room.
  destruct (d !! "room_identifier") as [[|rid]|]; apply _.
Defined.

(** Referential integrity: every device names a stored room. *)
Definition referential (sh : gmap string record) : Prop :=
  map_Forall (λ k d, String.prefix (prefix device_repo) k = true →
                     refers_to_room sh d) sh.

#[global] Instance referential_dec sh : Decision (referential sh).
Proof. unfold referential. apply _. Defined.

(** The field [room] of a decorated device whose [room_identifier] was
    [rid]: a reference to an object holding the room stored for [rid], or
    [None] when there is no such room. *)
Definition room_view (σ : state) (sh : gmap string record) (rid : string)
    (v : pyval) : Prop :=
  match sh !! (prefix room_repo +:+ rid) with
  | Some R => ∃ l, v = VRef l ∧ heap σ !! l = Some (unpickle R)
  | None => v = VNone
  end.

(** The object [l] holds the device record [D] as [decorate_with_room]
    leaves it. *)
Definition device_view (σ : state) (sh : gmap string record) (l : loc)
    (D : record) : Prop :=
  ∃ rid v,
    D !! "room_identifier" = Some (SStr rid) ∧
    heap σ !! l =
      Some (delete "room_identifier" (<["room" := v]> (unpickle D))) ∧
    room_view σ sh rid v.

(** The objects [ls] hold the records [rs] without their
    [room_identifier]. *)
Definition holds_stripped (σ : state) (ls : list loc) (rs : list record)
    : Prop :=
  Forall2 (λ l r, heap σ !! l = Some (delete "room_identifier" (unpickle r)))
          ls rs.

(** The devices of the room whose identifier compares equal to [v]. *)
Definition devices_of (v : pyval) (sh : gmap string record) : list record :=
  filter (field_is "room_identifier" v) (collection device_repo sh).*2.

(** The object [l] holds the dict [o] as [decorate_with_devices] leaves
    it, [v] being its identifier: the objects listed hold the devices of
    [v], stripped, and are new with respect to the heap of [σ0]. *)
Definition room_view_devices (σ0 σ : state) (sh : gmap string record)
    (l : loc) (o : pyobj) (v : pyval) : Prop :=
  ∃ ls, heap σ !! l = Some (<["devices" := VList ls]> o) ∧
        holds_stripped σ ls (devices_of v sh) ∧
        Forall (λ l', heap σ0 !! l' = None) ls.

(** The device record [d] has a string [room_identifier]. *)
Definition names_room (d : record) : Prop :=
  match d !! "room_identifier" with
  | Some (SStr _) => True
  | _ => False
  end.

#[global] Instance names_room_dec d : Decision (names_room d).
Proof.
  unfold names_room. destruct (d !! "room_identifier") as [[|rid]|]; apply _.
Defined.

(** Every device record has a string [room_identifier]. *)
Definition all_name_room (sh : gmap string record) : Prop :=
  map_Forall (λ k d, String.prefix (prefix device_repo) k = true →
                     names_room d) sh.

#[global] Instance all_name_room_dec sh : Decision (all_name_room sh).
Proof. unfold all_name_room. apply _. Defined.

(** The object [l] holds the room record [R] as [decorate_with_devices]
    leaves it, with a list of objects that are new with respect to the
    heap of [σ0]. *)
Definition room_listing (σ0 σ : state) (sh : gmap string record) (l : loc)
    (R : record) : Prop :=
  ∃ x, R !! "identifier" = Some x ∧
       room_view_devices σ0 σ sh l (unpickle R) (unpickle_val x).

(** ** Concrete records and states *)

Definition kitchen : record :=
  {[ "identifier" := SStr "r1"; "name" := SStr "Kitchen" ]}.

Definition lamp : record :=
  {[ "identifier" := SStr "d1"; "name" := SStr "Lamp";
     "device_type" := SStr "switch"; "controller_name" := SStr "hub";
     "room_identifier" := SStr "r1" ]}.

Definition fan : record :=
  {[ "identifier" := SStr "d2"; "name" := SStr "Fan";
     "device_type" := SStr "switch"; "controller_name" := SStr "hub";
     "room_identifier" := SStr "r1" ]}.

(** A device whose identifier is also the identifier of a room. *)
Definition heater : record :=
  {[ "identifier" := SStr "r1"; "name" := SStr "Heater";
     "device_type" := SStr "switch"; "controller_name" := SStr "hub";
     "room_identifier" := SStr "r1" ]}.

(** A device record without its [room_identifier]. *)
Definition stray : record :=
  {[ "identifier" := SStr "d3"; "name" := SStr "Stray" ]}.

Definition empty_state : state := State ∅ [].

(** One room and one device in it. *)
Definition house : state :=
  State {[ "room:r1" := kitchen; "device:d1" := lamp ]} [].

(** One room, one device in it, and a device record without its
    [room_identifier]. *)
Definition house_stray : state :=
  State {[ "room:r1" := kitchen; "device:d1" := lamp;
           "device:d3" := stray ]} [].

(** A device collection whose only record lacks [room_identifier]. *)
Definition lost_and_found : state :=
  State {[ "device:d3" := stray ]} [].

(** One room and two devices in it. *)
Definition house2 : state :=
  State {[ "room:r1" := kitchen; "device:d1" := lamp; "device:d2" := fan ]} [].

(** * Basic facts *)

Lemma state_eta σ : State (shelf σ) (heap σ) = σ.
Proof. by destruct σ. Qed.

Lemma unpickle_val_inj : Inj (=) (=) unpickle_val.
Proof. intros [|x] [|y] H; simpl in H; congruence. Qed.

Lemma unpickle_inj : Inj (=) (=) unpickle.
Proof.
  intros r1 r2 H. apply map_eq. intros k.
  apply (f_equal (λ m : pyobj, m !! k)) in H.
  unfold unpickle in H. rewrite !lookup_fmap in H.
  destruct (r1 !! k) as [x|], (r2 !! k) as [y|]; simpl in H; try congruence.
  f_equal. apply unpickle_val_inj. congruence.
Qed.

Lemma py_eq_unpickled (x : sval) (v : pyval) :
  py_eq (unpickle_val x) v = bool_decide (unpickle_val x = v).
Proof.
  destruct x as [|a], v as [| b | |]; simpl; try done.
  destruct (decide (a = b)) as [->|Hne].
  - by rewrite !bool_decide_eq_true_2.
  - rewrite !bool_decide_eq_false_2; [done | congruence | done].
Qed.

Lemma prefix_app (p x : string) : String.prefix p (p +:+ x) = true.
Proof.
  induction p as [|a p IH]; simpl; [by destruct x|].
  by destruct (Ascii.ascii_dec a a).
Qed.

Lemma room_key_not_device i :
  String.prefix (prefix device_repo) (prefix room_repo +:+ i) = false.
Proof. reflexivity. Qed.

Lemma device_key_not_room i :
  String.prefix (prefix room_repo) (prefix device_repo +:+ i) = false.
Proof. reflexivity. Qed.

Lemma elem_of_collection repo sh k r :
  (k, r) ∈ collection repo sh ↔
  String.prefix (prefix repo) k = true ∧ sh !! k = Some r.
Proof.
  unfold collection. rewrite list_elem_of_filter, elem_of_map_to_list.
  reflexivity.
Qed.

Lemma NoDup_collection_keys repo sh : NoDup (collection repo sh).*1.
Proof.
  unfold collection.
  apply (sublist_NoDup _ (map_to_list sh).*1).
  - apply NoDup_fst_map_to_list.
  - apply fmap_sublist, sublist_filter.
Qed.

(** ** The repository operations, step by step *)

Lemma find_spec repo i σ :
  find repo i σ =
  match shelf σ !! (prefix repo +:+ i) with
  | None => Ok None σ
  | Some r => Ok (Some (length (heap σ)))
                 (State (shelf σ) (heap σ ++ [unpickle r]))
  end.
Proof.
  unfold find, bind, shelf_contains, shelf_getitem, ret.
  case_bool_decide as Hp; simpl.
  - destruct Hp as [r Hr]. by rewrite Hr.
  - by destruct (shelf σ !! (prefix repo +:+ i)) as [r|]; [destruct Hp|].
Qed.

Lemma find_all_loop_spec pre (kvs : list (string * record)) :
  ∀ objects σ,
    Forall (λ kr, shelf σ !! kr.1 = Some kr.2) kvs →
    find_all_loop pre kvs.*1 objects σ =
    let m := filter (λ kr, String.prefix pre kr.1 = true) kvs in
    Ok (objects ++ seq (length (heap σ)) (length m))
       (State (shelf σ) (heap σ ++ (unpickle <$> m.*2))).
Proof.
  induction kvs as [|[k r] kvs IH]; intros objects σ Hall; simpl.
  - unfold ret. by rewrite !app_nil_r, state_eta.
  - apply Forall_cons in Hall as [Hk Hall]. simpl in Hk.
    destruct (String.prefix pre k) eqn:Ep.
    + rewrite filter_cons_True by done. simpl.
      unfold bind, shelf_getitem. rewrite Hk.
      rewrite IH by done. simpl.
      rewrite length_app, <- !app_assoc. simpl.
      by rewrite Nat.add_1_r.
    + rewrite filter_cons_False by (simpl; congruence).
      by apply IH.
Qed.

Lemma find_all_spec repo σ :
  find_all repo σ =
  Ok (seq (length (heap σ)) (length (collection repo (shelf σ))))
     (State (shelf σ)
            (heap σ ++ (unpickle <$> (collection repo (shelf σ)).*2))).
Proof.
  unfold find_all, bind, shelf_keys.
  rewrite find_all_loop_spec; [done|].
  apply Forall_forall. intros [k r] Hin. by apply elem_of_map_to_list.
Qed.

Lemma holds_alloc h (rs : list record) σ :
  heap σ = h ++ (unpickle <$> rs) →
  holds σ (seq (length h) (length rs)) rs.
Proof.
  intros Hh. apply Forall2_same_length_lookup_2.
  - by rewrite length_seq.
  - intros i l r Hl Hr. apply lookup_seq in Hl as [-> Hlt].
    rewrite Hh, lookup_app_r by lia.
    replace (length h + i - length h) with i by lia.
    by rewrite list_lookup_fmap, Hr.
Qed.

Lemma obj_getitem_unpickled σ l (r : record) field :
  heap σ !! l = Some (unpickle r) →
  obj_getitem l field σ =
  match r !! field with
  | None => Raise (KeyError field) σ
  | Some x => Ok (unpickle_val x) σ
  end.
Proof.
  intros Hl. unfold obj_getitem. rewrite Hl.
  unfold unpickle. rewrite lookup_fmap. by destruct (r !! field).
Qed.

Lemma find_by_loop_ok key value σ objs rs :
  holds σ objs rs →
  Forall (λ r, is_Some (r !! key)) rs →
  ∀ acc,
    find_by_loop key value objs acc σ =
    Ok (acc ++ (filter (λ lr, field_is key value lr.2) (zip objs rs)).*1) σ.
Proof.
  induction 1 as [|l r objs rs Hl Hrest IH]; intros Hall acc; simpl.
  - unfold ret. by rewrite app_nil_r.
  - apply Forall_cons in Hall as [[x Hx] Hall].
    unfold bind. rewrite (obj_getitem_unpickled _ _ _ _ Hl), Hx.
    rewrite py_eq_unpickled. case_bool_decide as Hv.
    + rewrite filter_cons_True
        by (unfold field_is; simpl; rewrite Hx; simpl; congruence).
      rewrite IH by done. simpl. by rewrite <- app_assoc.
    + rewrite filter_cons_False; [by apply IH|].
      unfold field_is. simpl. rewrite Hx. simpl. congruence.
Qed.

Lemma find_by_loop_raise key value σ objs rs :
  holds σ objs rs →
  Exists (λ r, r !! key = None) rs →
  ∀ acc, find_by_loop key value objs acc σ = Raise (KeyError key) σ.
Proof.
  induction 1 as [|l r objs rs Hl Hrest IH]; intros Hex acc; simpl.
  - by apply Exists_nil in Hex.
  - unfold bind. rewrite (obj_getitem_unpickled _ _ _ _ Hl).
    destruct (r !! key) as [x|] eqn:Hx; [|done].
    apply Exists_cons in Hex as [Hex|Hex]; [congruence|].
    destruct (py_eq (unpickle_val x) value); by apply IH.
Qed.

Lemma filter_snd_fmap {A B} (P : B → Prop) `{∀ b, Decision (P b)}
    (l : list (A * B)) :
  (filter (λ ab, P ab.2) l).*2 = filter P l.*2.
Proof.
  induction l as [|[a b] l IH]; [done|].
  rewrite fmap_cons. destruct (decide (P b)).
  - rewrite !filter_cons_True by done. rewrite fmap_cons. by f_equal.
  - by rewrite !filter_cons_False.
Qed.

Lemma holds_filter_zip σ (P : record → Prop) `{∀ r, Decision (P r)} objs rs :
  holds σ objs rs →
  holds σ (filter (λ lr, P lr.2) (zip objs rs)).*1 (filter P rs).
Proof.
  induction 1 as [|l r objs rs Hl Hrest IH]; simpl; [constructor|].
  destruct (decide (P r)).
  - rewrite !filter_cons_True by done. simpl. by constructor.
  - by rewrite !filter_cons_False.
Qed.

(** ** Computations that do not write the shelf *)

Create HintDb shelf_frame.

Lemma ret_preserving {A} (a : A) : shelf_preserving (ret a).
Proof. done. Qed.

Lemma raise_preserving {A} e : shelf_preserving (@raise A e).
Proof. done. Qed.

Lemma bind_preserving {A B} (m : M A) (k : A → M B) :
  shelf_preserving m → (∀ a, shelf_preserving (k a)) →
  shelf_preserving (bind m k).
Proof.
  intros Hm Hk σ. unfold bind. specialize (Hm σ).
  destruct (m σ) as [a σ'|e σ']; simpl in *; [|done].
  by rewrite Hk.
Qed.

Lemma shelf_contains_preserving key : shelf_preserving (shelf_contains key).
Proof. done. Qed.

Lemma shelf_keys_preserving : shelf_preserving shelf_keys.
Proof. done. Qed.

Lemma shelf_getitem_preserving key : shelf_preserving (shelf_getitem key).
Proof. intros σ. unfold shelf_getitem. by destruct (shelf σ !! key). Qed.

Lemma obj_getitem_preserving l f : shelf_preserving (obj_getitem l f).
Proof.
  intros σ. unfold obj_getitem.
  destruct (heap σ !! l) as [o|]; [|done]. by destruct (o !! f).
Qed.

Lemma obj_setitem_preserving l f v : shelf_preserving (obj_setitem l f v).
Proof. intros σ. unfold obj_setitem. by destruct (heap σ !! l). Qed.

Lemma obj_delitem_preserving l f : shelf_preserving (obj_delitem l f).
Proof.
  intros σ. unfold obj_delitem.
  destruct (heap σ !! l) as [o|]; [|done]. by destruct (o !! f).
Qed.

#[global] Hint Resolve ret_preserving raise_preserving bind_preserving
  shelf_contains_preserving shelf_keys_preserving shelf_getitem_preserving
  obj_getitem_preserving obj_setitem_preserving obj_delitem_preserving
  : shelf_frame.

Lemma find_preserving repo i : shelf_preserving (find repo i).
Proof.
  unfold find. apply bind_preserving; [auto with shelf_frame|].
  intros []; simpl; auto with shelf_frame.
Qed.

Lemma find_all_loop_preserving pre keys :
  ∀ objects, shelf_preserving (find_all_loop pre keys objects).
Proof.
  induction keys as [|k keys IH]; intros objects; simpl;
    [auto with shelf_frame|].
  destruct (String.prefix pre k); auto with shelf_frame.
Qed.

Lemma find_all_preserving repo : shelf_preserving (find_all repo).
Proof.
  unfold find_all. apply bind_preserving; [auto with shelf_frame|].
  intros keys. apply find_all_loop_preserving.
Qed.

Lemma find_by_loop_preserving key value objs :
  ∀ objects, shelf_preserving (find_by_loop key value objs objects).
Proof.
  induction objs as [|o objs IH]; intros objects; simpl;
    [auto with shelf_frame|].
  apply bind_preserving; [auto with shelf_frame|].
  intros v. by destruct (py_eq v value).
Qed.

Lemma find_by_preserving repo key value :
  shelf_preserving (find_by repo key value).
Proof.
  unfold find_by. apply bind_preserving; [apply find_all_preserving|].
  intros objs. apply find_by_loop_preserving.
Qed.

Lemma strip_room_identifier_preserving devices :
  shelf_preserving (strip_room_identifier devices).
Proof. induction devices; simpl; auto with shelf_frame. Qed.

#[global] Hint Resolve find_preserving find_all_preserving find_by_preserving
  strip_room_identifier_preserving : shelf_frame.

Lemma decorate_with_room_preserving repo device :
  shelf_preserving (decorate_with_room repo device).
Proof.
  unfold decorate_with_room.
  apply bind_preserving; [auto with shelf_frame|]. intros rid.
  apply bind_preserving; [destruct rid; auto with shelf_frame|].
  intros room. auto with shelf_frame.
Qed.

Lemma decorate_with_devices_preserving repo room :
  shelf_preserving (decorate_with_devices repo room).
Proof.
  unfold decorate_with_devices.
  apply bind_preserving; [auto with shelf_frame|]. intros ident.
  apply bind_preserving; auto with shelf_frame.
Qed.

(** ** What [find_all] returns *)

Lemma find_all_result_spec repo σ :
  find_all_result repo σ =
  Some (unpickle <$> (collection repo (shelf σ)).*2).
Proof.
  unfold find_all_result. rewrite find_all_spec.
  apply mapM_Some_2, Forall2_fmap_r.
  rewrite <- (length_fmap snd).
  by apply (holds_alloc (heap σ)).
Qed.

Lemma collection_insert repo (sh : gmap string record) k r :
  collection repo (<[k := r]> sh) ≡ₚ
  filter (in_collection repo) [(k, r)] ++ collection repo (delete k sh).
Proof.
  unfold collection. rewrite <- filter_app. apply filter_Permutation. simpl.
  rewrite <- insert_delete_eq.
  apply map_to_list_insert, lookup_delete_eq.
Qed.

Lemma collection_delete repo (sh : gmap string record) k old :
  sh !! k = Some old →
  collection repo sh ≡ₚ
  filter (in_collection repo) [(k, old)] ++ collection repo (delete k sh).
Proof.
  intros Hk. unfold collection. rewrite <- filter_app.
  apply filter_Permutation. simpl. symmetry. by apply map_to_list_delete.
Qed.

Lemma collection_other_key repo k (r : record) :
  String.prefix (prefix repo) k = false →
  filter (in_collection repo) [(k, r)] = [].
Proof.
  intros Hp. rewrite filter_cons_False; [done|].
  unfold in_collection. simpl. congruence.
Qed.

Lemma collection_own_key repo i (r : record) :
  filter (in_collection repo) [(prefix repo +:+ i, r)] =
  [(prefix repo +:+ i, r)].
Proof.
  rewrite filter_cons_True; [done|].
  unfold in_collection. simpl. apply prefix_app.
Qed.

(** ** [find_by], whole *)

Lemma find_by_ok repo field value σ :
  all_have repo field (shelf σ) →
  ∃ ls, find_by repo field value σ = Ok ls (scanned repo σ) ∧
        holds (scanned repo σ) ls
          (filter (field_is field value) (collection repo (shelf σ)).*2).
Proof.
  intros Hall.
  set (c := collection repo (shelf σ)).
  assert (Hholds : holds (scanned repo σ)
                     (seq (length (heap σ)) (length c.*2)) c.*2)
    by by apply (holds_alloc (heap σ)).
  assert (Hfields : Forall (λ r : record, is_Some (r !! field)) c.*2).
  { apply Forall_fmap, Forall_forall. intros [k r] Hin.
    apply elem_of_collection in Hin as [Hp Hk]. simpl. by apply (Hall k). }
  eexists. split.
  - unfold find_by, bind. rewrite find_all_spec. fold c.
    rewrite <- (length_fmap snd c).
    by rewrite (find_by_loop_ok _ _ _ _ _ Hholds Hfields).
  - simpl. by apply holds_filter_zip.
Qed.

Lemma find_by_raise repo field value σ k (r : record) :
  String.prefix (prefix repo) k = true →
  shelf σ !! k = Some r →
  r !! field = None →
  find_by repo field value σ = Raise (KeyError field) (scanned repo σ).
Proof.
  intros Hp Hk Hf.
  set (c := collection repo (shelf σ)).
  assert (Hholds : holds (scanned repo σ)
                     (seq (length (heap σ)) (length c.*2)) c.*2)
    by by apply (holds_alloc (heap σ)).
  unfold find_by, bind. rewrite find_all_spec. fold c.
  rewrite <- (length_fmap snd c).
  apply (find_by_loop_raise _ _ _ _ _ Hholds).
  apply Exists_exists. exists r. split; [|done].
  apply list_elem_of_fmap. exists (k, r). split; [done|].
  by apply elem_of_collection.
Qed.

(** ** The decorators, on an object at hand *)

Lemma decorate_with_room_found repo d σ (o : pyobj) rid (R : record) :
  heap σ !! d = Some o →
  o !! "room_identifier" = Some (VStr rid) →
  shelf σ !! (prefix repo +:+ rid) = Some R →
  decorate_with_room repo d σ =
  Ok () (State (shelf σ)
           (<[d := delete "room_identifier"
                     (<["room" := VRef (length (heap σ))]> o)]>
              (heap σ ++ [unpickle R]))).
Proof.
  intros Hd Hrid HR. pose proof (lookup_lt_Some _ _ _ Hd) as Hlt.
  unfold decorate_with_room, bind.
  unfold obj_getitem. rewrite Hd, Hrid.
  rewrite find_spec, HR.
  unfold obj_setitem. simpl.
  rewrite (lookup_app_l_Some _ _ _ _ Hd).
  unfold obj_delitem. simpl.
  rewrite list_lookup_insert_eq by (rewrite length_app; lia).
  rewrite lookup_insert_ne by done. rewrite Hrid.
  by rewrite list_insert_insert_eq.
Qed.

Lemma saved_pair (R1 D1 : record) h σ :
  (save room_repo R1;; save device_repo D1) (State ∅ h) = Ok () σ →
  ∃ rid did,
    R1 !! "identifier" = Some (SStr rid) ∧
    D1 !! "identifier" = Some (SStr did) ∧
    σ = State (<[prefix device_repo +:+ did := D1]>
                 (<[prefix room_repo +:+ rid := R1]> ∅)) h.
Proof.
  unfold bind, save, raise, shelf_setitem.
  destruct (R1 !! "identifier") as [[|rid]|]; [done| |done].
  destruct (D1 !! "identifier") as [[|did]|]; [done| |done].
  simpl. intros [= <-]. by exists rid, did.
Qed.

Lemma room_device_keys_differ rid did :
  prefix room_repo +:+ rid ≠ prefix device_repo +:+ did.
Proof. discriminate. Qed.

Lemma collection_saved_pair_devices rid did (R1 D1 : record) :
  collection device_repo
    (<[prefix device_repo +:+ did := D1]>
       (<[prefix room_repo +:+ rid := R1]> ∅)) =
  [(prefix device_repo +:+ did, D1)].
Proof.
  apply Permutation_singleton_r.
  rewrite collection_insert, collection_own_key.
  rewrite delete_id
    by (rewrite lookup_insert_ne by apply room_device_keys_differ;
        apply lookup_empty).
  rewrite collection_insert.
  rewrite collection_other_key by apply room_key_not_device.
  rewrite delete_empty. unfold collection. by rewrite map_to_list_empty.
Qed.

Lemma decorate_with_devices_single repo r σ (R D : record) rid k :
  heap σ !! r = Some (unpickle R) →
  R !! "identifier" = Some (SStr rid) →
  collection repo (shelf σ) = [(k, D)] →
  D !! "room_identifier" = Some (SStr rid) →
  decorate_with_devices repo r σ =
  Ok () (State (shelf σ)
           (<[r := <["devices" := VList [length (heap σ)]]> (unpickle R)]>
              (<[length (heap σ) := delete "room_identifier" (unpickle D)]>
                 (heap σ ++ [unpickle D])))).
Proof.
  intros Hr Hid Hc HD. pose proof (lookup_lt_Some _ _ _ Hr) as Hlt.
  assert (Hfield : unpickle D !! "room_identifier" = Some (VStr rid))
    by (unfold unpickle; by rewrite lookup_fmap, HD).
  unfold decorate_with_devices. unfold bind at 1.
  rewrite (obj_getitem_unpickled _ _ _ _ Hr), Hid. simpl.
  unfold bind at 1. unfold find_by. unfold bind at 1.
  rewrite find_all_spec, Hc. simpl.
  unfold bind at 1. unfold obj_getitem. simpl.
  rewrite list_lookup_middle by done. rewrite Hfield. simpl.
  rewrite bool_decide_eq_true_2 by done. unfold ret at 1.
  unfold bind at 1. simpl. unfold bind at 1. unfold obj_delitem. simpl.
  rewrite list_lookup_middle by done. rewrite Hfield.
  unfold ret, obj_setitem. simpl.
  rewrite list_lookup_insert_ne by lia.
  by rewrite (lookup_app_l_Some _ _ _ _ Hr).
Qed.

(** ** The handlers, step by step *)

Lemma Room_delete_found rid (R : record) σ (o : outcome (list loc)) :
  shelf σ !! (prefix room_repo +:+ rid) = Some R →
  find_by device_repo "room_identifier" (VStr rid)
    (State (shelf σ) (heap σ ++ [unpickle R])) = o →
  Room_delete rid σ =
  match o with
  | Ok (_ :: _) σ' =>
      Ok (Message "Cannot delete a room that has devices", 400) σ'
  | Ok [] σ' => (delete_ room_repo rid;; ret (Empty, 204)) σ'
  | Raise e σ' => Raise e σ'
  end.
Proof.
  intros HR <-. unfold Room_delete. unfold bind at 1.
  rewrite find_spec, HR. unfold bind at 1.
  destruct (find_by _ _ _ _) as [[|d ds] σ'|e σ']; done.
Qed.

Lemma Device_delete_found did (D : record) σ :
  shelf σ !! (prefix device_repo +:+ did) = Some D →
  Device_delete did σ =
  Ok (Empty, 204)
     (State (delete (prefix device_repo +:+ did) (shelf σ))
            (heap σ ++ [unpickle D])).
Proof.
  intros HD. unfold Device_delete, bind.
  rewrite find_spec, HD. unfold delete_, shelf_delitem. cbn [shelf heap].
  by rewrite HD.
Qed.

Lemma filter_none {A} (P : A → Prop) `{∀ x, Decision (P x)} (l : list A) :
  Forall (λ x, ¬ P x) l → filter P l = [].
Proof.
  induction 1 as [|x l Hx Hl IH]; [done|].
  by rewrite filter_cons_False.
Qed.

Lemma field_is_stored field s (r : record) :
  field_is field (VStr s) r ↔ r !! field = Some (SStr s).
Proof.
  unfold field_is. destruct (r !! field) as [[|x]|]; simpl; split;
    congruence.
Qed.

(** * The properties *)

(** ** Runs of the handlers *)

(** Registering a second device in the kitchen: the record is stored as
    posted, and the object in the response is the decorated copy. *)
Example post_registers :
  ∃ σ', DeviceList_post fan house =
          Ok (MessageData "Device registered" 1, 201) σ' ∧
        shelf σ' = shelf house2 ∧
        heap σ' !! 1 =
          Some (delete "room_identifier"
                  (<["room" := VRef 2]> (unpickle fan))) ∧
        heap σ' !! 2 = Some (unpickle kitchen).
Proof.
  eexists. split; [vm_compute; reflexivity|].
  repeat split; vm_compute; reflexivity.
Qed.

Example room_delete_unknown :
  Room_delete "r9" house = Ok (Message "Room not found", 404) house.
Proof. reflexivity. Qed.

Example device_delete_unknown :
  Device_delete "d9" house = Ok (Message "Device not found", 404) house.
Proof. reflexivity. Qed.

(** ** Round trip *)

(** C1. Repository round trip: for every record [r] whose ['identifier']
    field holds a string [i], [repo.save(r)] returns, and on the state it
    leaves [repo.find(i)] returns an object whose fields are those of [r]. *)
Theorem save_find_roundtrip (repo : Repository) (r : record) (i : string)
    (σ : state) :
  r !! "identifier" = Some (SStr i) →
  ∃ σ1, save repo r σ = Ok () σ1 ∧
  ∃ l σ2, find repo i σ1 = Ok (Some l) σ2 ∧
          heap σ2 !! l = Some (unpickle r).
Proof.
  intros Hid. unfold save. rewrite Hid. unfold shelf_setitem.
  eexists. split; [done|].
  rewrite find_spec. simpl. rewrite lookup_insert_eq.
  do 2 eexists. split; [done|]. simpl.
  by apply list_lookup_middle.
Qed.

Lemma save_find_roundtrip_witness :
  lamp !! "identifier" = Some (SStr "d1") ∧
  ∃ σ1, save device_repo lamp empty_state = Ok () σ1 ∧
  ∃ l σ2, find device_repo "d1" σ1 = Ok (Some l) σ2 ∧
          heap σ2 !! l = Some (unpickle lamp).
Proof.
  split; [reflexivity|].
  apply (save_find_roundtrip device_repo lamp "d1" empty_state).
  reflexivity.
Defined.

(** ** Delete, then find *)

(** C7. Delete-then-find: when the key of [id] is in the shelf,
    [repo.delete(id)] returns; on the state it leaves, [repo.find(id)]
    returns [None] and a second [repo.delete(id)] raises the shelf's
    [KeyError] for the missing key. *)
Theorem delete_then_find (repo : Repository) (i : string) (σ : state) :
  is_Some (shelf σ !! (prefix repo +:+ i)) →
  ∃ σ1, delete_ repo i σ = Ok () σ1 ∧
        find repo i σ1 = Ok None σ1 ∧
        delete_ repo i σ1 = Raise (KeyError (prefix repo +:+ i)) σ1.
Proof.
  intros [r Hr]. unfold delete_, shelf_delitem. rewrite Hr.
  eexists. split; [done|]. rewrite find_spec. simpl.
  by rewrite lookup_delete_eq.
Qed.

Lemma delete_then_find_witness :
  is_Some (shelf house !! (prefix device_repo +:+ "d1")) ∧
  ∃ σ1, delete_ device_repo "d1" house = Ok () σ1 ∧
        find device_repo "d1" σ1 = Ok None σ1 ∧
        delete_ device_repo "d1" σ1 =
          Raise (KeyError (prefix device_repo +:+ "d1")) σ1.
Proof.
  assert (H : is_Some (shelf house !! (prefix device_repo +:+ "d1")))
    by (exists lamp; reflexivity).
  split; [exact H|].
  exact (delete_then_find device_repo "d1" house H).
Defined.

(** ** Referential rejection *)

(** C5. Referential rejection: when the room repository has no entry for
    [i] (its [find(i)] is [None]), [DeviceList.post] with
    [room_identifier = i] returns the 400 response "Room does not exist"
    and leaves the whole state, shelf included, as it was. *)
Theorem referential_rejection (args : record) (i : string) (σ : state) :
  args !! "room_identifier" = Some (SStr i) →
  shelf σ !! (prefix room_repo +:+ i) = None →
  DeviceList_post args σ = Ok (Message "Room does not exist", 400) σ.
Proof.
  intros Hargs Hroom. unfold DeviceList_post, args_str. rewrite Hargs.
  unfold bind at 1. unfold ret at 1. unfold bind.
  by rewrite find_spec, Hroom.
Qed.

Lemma referential_rejection_witness :
  lamp !! "room_identifier" = Some (SStr "r1") ∧
  shelf empty_state !! (prefix room_repo +:+ "r1") = None ∧
  DeviceList_post lamp empty_state =
    Ok (Message "Room does not exist", 400) empty_state.
Proof.
  split; [reflexivity|]. split; [reflexivity|].
  apply (referential_rejection lamp "r1" empty_state); reflexivity.
Defined.

(** ** find_by *)

(** C2. find_by correctness: when every record of the collection has the
    field ([all_have]), [repo.find_by(field, value)] returns; the shelf is untouched,
    and the objects returned hold, one for one, the records of a list of
    entries [krs] with distinct keys in which an entry [(k, r)] occurs
    exactly when [k] is a key of the collection, [r] is stored under [k]
    and [r[field] == value]. *)
Theorem find_by_correct (repo : Repository) (field : string) (value : pyval)
    (σ : state) :
  all_have repo field (shelf σ) →
  ∃ ls σ' krs,
    find_by repo field value σ = Ok ls σ' ∧
    shelf σ' = shelf σ ∧
    holds σ' ls krs.*2 ∧
    NoDup krs.*1 ∧
    ∀ k r, (k, r) ∈ krs ↔
           String.prefix (prefix repo) k = true ∧
           shelf σ !! k = Some r ∧
           field_is field value r.
Proof.
  intros Hall.
  destruct (find_by_ok repo field value σ Hall) as (ls & Hrun & Hholds).
  set (c := collection repo (shelf σ)).
  set (krs := filter (λ kr : string * record, field_is field value kr.2) c).
  exists ls, (scanned repo σ), krs.
  split; [done|]. split; [done|]. split; [|split].
  - unfold krs. by rewrite filter_snd_fmap.
  - apply (sublist_NoDup _ c.*1); [apply NoDup_collection_keys|].
    apply fmap_sublist, sublist_filter.
  - intros k r. unfold krs. rewrite list_elem_of_filter. simpl.
    unfold c. rewrite elem_of_collection. tauto.
Qed.

Lemma find_by_correct_witness :
  all_have device_repo "room_identifier" (shelf house2) ∧
  ∃ ls σ' krs,
    find_by device_repo "room_identifier" (VStr "r1") house2 = Ok ls σ' ∧
    shelf σ' = shelf house2 ∧
    holds σ' ls krs.*2 ∧
    NoDup krs.*1 ∧
    ∀ k r, (k, r) ∈ krs ↔
           String.prefix (prefix device_repo) k = true ∧
           shelf house2 !! k = Some r ∧
           field_is "room_identifier" (VStr "r1") r.
Proof.
  assert (H : all_have device_repo "room_identifier" (shelf house2))
    by (apply (bool_decide_unpack _); vm_compute; exact I).
  split; [exact H|].
  exact (find_by_correct device_repo "room_identifier" (VStr "r1") house2 H).
Defined.

(** C9. find_by on a missing field: when some record of the collection
    lacks the field, [repo.find_by(field, value)] raises [KeyError] for
    that field (the record is not skipped); the shelf is untouched. *)
Theorem find_by_missing_field (repo : Repository) (field : string)
    (value : pyval) (σ : state) (k : string) (r : record) :
  String.prefix (prefix repo) k = true →
  shelf σ !! k = Some r →
  r !! field = None →
  ∃ σ', find_by repo field value σ = Raise (KeyError field) σ' ∧
        shelf σ' = shelf σ.
Proof.
  intros Hp Hk Hf. exists (scanned repo σ). split; [|done].
  by apply (find_by_raise repo field value σ k r).
Qed.

Lemma find_by_missing_field_witness :
  String.prefix (prefix device_repo) "device:d3" = true ∧
  shelf lost_and_found !! "device:d3" = Some stray ∧
  stray !! "room_identifier" = None ∧
  ∃ σ', find_by device_repo "room_identifier" (VStr "r1") lost_and_found =
        Raise (KeyError "room_identifier") σ' ∧
        shelf σ' = shelf lost_and_found.
Proof.
  split; [reflexivity|]. split; [reflexivity|]. split; [reflexivity|].
  apply (find_by_missing_field device_repo "room_identifier" (VStr "r1")
           lost_and_found "device:d3" stray);
    reflexivity.
Defined.

(** ** Frame of the mutations *)

(** C10. Single-key frame: [repo.save(r)], for [r] with a string
    identifier [i], stores [r] under the key [prefix + i] and leaves every
    other key of the shelf, and the heap, as they were; [repo.delete(i)],
    when the key is present, removes that key and leaves every other key as
    it was.  Accordingly [find_all()] of the same repository returns, up to
    order, the saved record added to the records of the other keys (where
    before it returned those and, if the key was taken, the record
    overwritten), and after a delete what it returned before less the
    deleted record. *)
Theorem single_key_frame (repo : Repository) (σ : state) :
  (∀ (r : record) (i : string),
     r !! "identifier" = Some (SStr i) →
     ∃ σ' before after rest,
       save repo r σ = Ok () σ' ∧
       shelf σ' !! (prefix repo +:+ i) = Some r ∧
       (∀ k, k ≠ prefix repo +:+ i → shelf σ' !! k = shelf σ !! k) ∧
       heap σ' = heap σ ∧
       find_all_result repo σ = Some before ∧
       find_all_result repo σ' = Some after ∧
       after ≡ₚ unpickle r :: rest ∧
       before ≡ₚ match shelf σ !! (prefix repo +:+ i) with
                 | Some old => unpickle old :: rest
                 | None => rest
                 end) ∧
  (∀ (i : string) (old : record),
     shelf σ !! (prefix repo +:+ i) = Some old →
     ∃ σ' before after,
       delete_ repo i σ = Ok () σ' ∧
       shelf σ' !! (prefix repo +:+ i) = None ∧
       (∀ k, k ≠ prefix repo +:+ i → shelf σ' !! k = shelf σ !! k) ∧
       heap σ' = heap σ ∧
       find_all_result repo σ = Some before ∧
       find_all_result repo σ' = Some after ∧
       before ≡ₚ unpickle old :: after).
Proof.
  split.
  - intros r i Hid. set (key := prefix repo +:+ i).
    exists (State (<[key := r]> (shelf σ)) (heap σ)).
    eexists _, _, (unpickle <$> (collection repo (delete key (shelf σ))).*2).
    split; [by unfold save, shelf_setitem; rewrite Hid|].
    split; [apply lookup_insert_eq|].
    split; [by intros k Hk; apply lookup_insert_ne|].
    split; [done|].
    split; [apply find_all_result_spec|].
    split; [apply find_all_result_spec|]. simpl. split.
    + rewrite collection_insert. unfold key at 1.
      by rewrite collection_own_key.
    + destruct (shelf σ !! key) as [old|] eqn:Hold.
      * rewrite (collection_delete _ _ _ _ Hold). unfold key at 1.
        by rewrite collection_own_key.
      * by rewrite delete_id.
  - intros i old Hold. set (key := prefix repo +:+ i).
    exists (State (delete key (shelf σ)) (heap σ)). eexists _, _.
    split; [by unfold delete_, shelf_delitem; rewrite Hold|].
    split; [apply lookup_delete_eq|].
    split; [by intros k Hk; apply lookup_delete_ne|].
    split; [done|].
    split; [apply find_all_result_spec|].
    split; [apply find_all_result_spec|]. simpl.
    rewrite (collection_delete _ _ _ _ Hold). unfold key at 1.
    by rewrite collection_own_key.
Qed.

Lemma single_key_frame_witness :
  lamp !! "identifier" = Some (SStr "d1") ∧
  shelf house2 !! (prefix device_repo +:+ "d2") = Some fan ∧
  (∃ σ' before after rest,
     save device_repo lamp house2 = Ok () σ' ∧
     shelf σ' !! (prefix device_repo +:+ "d1") = Some lamp ∧
     (∀ k, k ≠ prefix device_repo +:+ "d1" →
           shelf σ' !! k = shelf house2 !! k) ∧
     heap σ' = heap house2 ∧
     find_all_result device_repo house2 = Some before ∧
     find_all_result device_repo σ' = Some after ∧
     after ≡ₚ unpickle lamp :: rest ∧
     before ≡ₚ match shelf house2 !! (prefix device_repo +:+ "d1") with
               | Some old => unpickle old :: rest
               | None => rest
               end) ∧
  (∃ σ' before after,
     delete_ device_repo "d2" house2 = Ok () σ' ∧
     shelf σ' !! (prefix device_repo +:+ "d2") = None ∧
     (∀ k, k ≠ prefix device_repo +:+ "d2" →
           shelf σ' !! k = shelf house2 !! k) ∧
     heap σ' = heap house2 ∧
     find_all_result device_repo house2 = Some before ∧
     find_all_result device_repo σ' = Some after ∧
     before ≡ₚ unpickle fan :: after).
Proof.
  assert (H1 : lamp !! "identifier" = Some (SStr "d1")) by reflexivity.
  assert (H2 : shelf house2 !! (prefix device_repo +:+ "d2") = Some fan)
    by reflexivity.
  split; [exact H1|]. split; [exact H2|]. split.
  - exact (proj1 (single_key_frame device_repo house2) lamp "d1" H1).
  - exact (proj2 (single_key_frame device_repo house2) "d2" fan H2).
Defined.

(** ** Prefix isolation *)

(** C8. Prefix isolation: after [save] of [r] through the device
    repository, whatever the identifier [i] of [r] (one shared with a room
    included), the room repository's [find_all()] returns the records of
    the shelf entries under the prefix [room:], and the entry just saved,
    under the key [device:] + [i], is not one of them; what that
    [find_all()] returns is, up to order, what it returned before the
    save. *)
Theorem prefix_isolation (r : record) (i : string) (σ : state) :
  r !! "identifier" = Some (SStr i) →
  ∃ σ' before after,
    save device_repo r σ = Ok () σ' ∧
    shelf σ' !! (prefix device_repo +:+ i) = Some r ∧
    find_all_result room_repo σ = Some before ∧
    find_all_result room_repo σ' = Some after ∧
    after = unpickle <$> (collection room_repo (shelf σ')).*2 ∧
    ((prefix device_repo +:+ i) ∉ (collection room_repo (shelf σ')).*1) ∧
    after ≡ₚ before.
Proof.
  intros Hid. set (key := prefix device_repo +:+ i).
  exists (State (<[key := r]> (shelf σ)) (heap σ)). eexists _, _.
  split; [by unfold save, shelf_setitem; rewrite Hid|].
  split; [apply lookup_insert_eq|].
  split; [apply find_all_result_spec|].
  split; [apply find_all_result_spec|]. cbn [shelf heap].
  split; [done|]. split.
  - intros Hin. apply list_elem_of_fmap in Hin as ([k r'] & Hk & Hin).
    apply elem_of_collection in Hin as [Hp _]. cbn [fst] in Hk. subst k.
    unfold key in Hp. by rewrite device_key_not_room in Hp.
  - rewrite collection_insert.
    rewrite collection_other_key by apply device_key_not_room.
    rewrite app_nil_l.
    destruct (shelf σ !! key) as [old|] eqn:Hold.
    + rewrite (collection_delete room_repo _ _ _ Hold).
      by rewrite collection_other_key by apply device_key_not_room.
    + by rewrite delete_id.
Qed.

Lemma prefix_isolation_witness :
  heater !! "identifier" = Some (SStr "r1") ∧
  ∃ σ' before after,
    save device_repo heater house = Ok () σ' ∧
    shelf σ' !! (prefix device_repo +:+ "r1") = Some heater ∧
    find_all_result room_repo house = Some before ∧
    find_all_result room_repo σ' = Some after ∧
    after = unpickle <$> (collection room_repo (shelf σ')).*2 ∧
    ((prefix device_repo +:+ "r1") ∉ (collection room_repo (shelf σ')).*1) ∧
    after ≡ₚ before.
Proof.
  split; [reflexivity|].
  apply (prefix_isolation heater "r1" house).
  reflexivity.
Defined.

(** ** Decoration *)

(** C3. Decoration round trip: on the state reached by saving room [R1]
    and device [D1] into an empty shelf, with
    [D1['room_identifier'] == R1['identifier']]:
    [decorate_with_room] on an object [d] holding [D1] returns and leaves
    [d] with a [room] field that refers to an object holding [R1], without
    its [room_identifier] field and otherwise as it was;
    [decorate_with_devices] on an object [r] holding [R1] returns and
    leaves [r] with a [devices] field listing one object, which holds [D1]
    without its [room_identifier] field.  Neither writes the shelf. *)
Theorem decoration_roundtrip (R1 D1 : record) (h : list pyobj) (σ : state) :
  (save room_repo R1;; save device_repo D1) (State ∅ h) = Ok () σ →
  D1 !! "room_identifier" = R1 !! "identifier" →
  (∀ d, heap σ !! d = Some (unpickle D1) →
     ∃ room σ',
       decorate_with_room room_repo d σ = Ok () σ' ∧
       shelf σ' = shelf σ ∧
       heap σ' !! d =
         Some (delete "room_identifier"
                 (<["room" := VRef room]> (unpickle D1))) ∧
       heap σ' !! room = Some (unpickle R1)) ∧
  (∀ r, heap σ !! r = Some (unpickle R1) →
     ∃ dev σ',
       decorate_with_devices device_repo r σ = Ok () σ' ∧
       shelf σ' = shelf σ ∧
       heap σ' !! r = Some (<["devices" := VList [dev]]> (unpickle R1)) ∧
       heap σ' !! dev = Some (delete "room_identifier" (unpickle D1))).
Proof.
  intros Hsaved Href.
  apply saved_pair in Hsaved as (rid & did & HR & HD & ->).
  rewrite HR in Href. simpl. split.
  - intros d Hd. pose proof (lookup_lt_Some _ _ _ Hd) as Hlt.
    exists (length h). eexists. split.
    + apply (decorate_with_room_found _ _ _ (unpickle D1) rid R1); simpl.
      * done.
      * unfold unpickle. by rewrite lookup_fmap, Href.
      * rewrite lookup_insert_ne by (symmetry; apply room_device_keys_differ).
        apply lookup_insert_eq.
    + simpl. split; [done|]. split.
      * apply list_lookup_insert_eq. rewrite length_app. lia.
      * rewrite list_lookup_insert_ne by lia. by apply list_lookup_middle.
  - intros r Hr. pose proof (lookup_lt_Some _ _ _ Hr) as Hlt.
    exists (length h). eexists. split.
    + apply (decorate_with_devices_single _ _ _ R1 D1 rid
               (prefix device_repo +:+ did)); simpl; try done.
      apply collection_saved_pair_devices.
    + simpl. split; [done|]. split.
      * apply list_lookup_insert_eq.
        rewrite length_insert, length_app. lia.
      * rewrite list_lookup_insert_ne by lia.
        apply list_lookup_insert_eq. rewrite length_app. simpl. lia.
Qed.

Lemma decoration_roundtrip_witness :
  (save room_repo kitchen;; save device_repo lamp)
    (State ∅ [unpickle lamp; unpickle kitchen]) =
    Ok () (State (shelf house) [unpickle lamp; unpickle kitchen]) ∧
  lamp !! "room_identifier" = kitchen !! "identifier" ∧
  (∃ room σ',
     decorate_with_room room_repo 0
       (State (shelf house) [unpickle lamp; unpickle kitchen]) = Ok () σ' ∧
     shelf σ' = shelf house ∧
     heap σ' !! 0 =
       Some (delete "room_identifier"
               (<["room" := VRef room]> (unpickle lamp))) ∧
     heap σ' !! room = Some (unpickle kitchen)) ∧
  (∃ dev σ',
     decorate_with_devices device_repo 1
       (State (shelf house) [unpickle lamp; unpickle kitchen]) = Ok () σ' ∧
     shelf σ' = shelf house ∧
     heap σ' !! 1 = Some (<["devices" := VList [dev]]> (unpickle kitchen)) ∧
     heap σ' !! dev = Some (delete "room_identifier" (unpickle lamp))).
Proof.
  assert (H1 : (save room_repo kitchen;; save device_repo lamp)
                 (State ∅ [unpickle lamp; unpickle kitchen]) =
               Ok () (State (shelf house) [unpickle lamp; unpickle kitchen]))
    by (vm_compute; reflexivity).
  assert (H2 : lamp !! "room_identifier" = kitchen !! "identifier")
    by reflexivity.
  split; [exact H1|]. split; [exact H2|]. split.
  - exact (proj1 (decoration_roundtrip kitchen lamp _ _ H1 H2) 0 eq_refl).
  - exact (proj2 (decoration_roundtrip kitchen lamp _ _ H1 H2) 1 eq_refl).
Defined.

(** C4. Decoration leaves the persisted state unchanged: whatever the
    object and whatever the outcome, [decorate_with_room] and
    [decorate_with_devices] leave the shelf as it was.  In particular,
    for a device record [r] stored under [i]: after [find(i)] has fetched
    it into an object [d] and [decorate_with_room] has run on [d], the
    shelf is the one before, and a new [find(i)] returns an object that
    holds [r] whole, its [room_identifier] included. *)
Theorem decoration_preserves_shelf (drepo rrepo : Repository) (σ : state) :
  (∀ l, shelf (final (decorate_with_room rrepo l σ)) = shelf σ ∧
        shelf (final (decorate_with_devices drepo l σ)) = shelf σ) ∧
  (∀ i (r : record),
     shelf σ !! (prefix drepo +:+ i) = Some r →
     ∃ d σ1,
       find drepo i σ = Ok (Some d) σ1 ∧
       heap σ1 !! d = Some (unpickle r) ∧
       shelf (final (decorate_with_room rrepo d σ1)) = shelf σ ∧
       ∃ d' σ3,
         find drepo i (final (decorate_with_room rrepo d σ1)) =
           Ok (Some d') σ3 ∧
         heap σ3 !! d' = Some (unpickle r)).
Proof.
  split.
  - intros l. split.
    + apply decorate_with_room_preserving.
    + apply decorate_with_devices_preserving.
  - intros i r Hr. rewrite find_spec, Hr.
    set (σ1 := State (shelf σ) (heap σ ++ [unpickle r])).
    exists (length (heap σ)), σ1.
    split; [done|]. split; [by apply list_lookup_middle|].
    assert (Hsh : shelf (final (decorate_with_room rrepo (length (heap σ)) σ1))
                  = shelf σ)
      by apply (decorate_with_room_preserving rrepo _ σ1).
    split; [done|].
    rewrite find_spec, Hsh, Hr.
    do 2 eexists. split; [done|]. by apply list_lookup_middle.
Qed.

Lemma decoration_preserves_shelf_witness :
  shelf house !! (prefix device_repo +:+ "d1") = Some lamp ∧
  ∃ d σ1,
    find device_repo "d1" house = Ok (Some d) σ1 ∧
    heap σ1 !! d = Some (unpickle lamp) ∧
    shelf (final (decorate_with_room room_repo d σ1)) = shelf house ∧
    ∃ d' σ3,
      find device_repo "d1" (final (decorate_with_room room_repo d σ1)) =
        Ok (Some d') σ3 ∧
      heap σ3 !! d' = Some (unpickle lamp).
Proof.
  assert (H : shelf house !! (prefix device_repo +:+ "d1") = Some lamp)
    by reflexivity.
  split; [exact H|].
  exact (proj2 (decoration_preserves_shelf device_repo room_repo house)
           "d1" lamp H).
Defined.

(** ** Room deletion guard *)

(** C6, as the claim states it, fails, at two states that store the
    room [r1] and the device [d1] in it.  In [house2] the room holds a
    second device: once [d1] is deleted, [Room.delete] of [r1] is still
    answered with the 400 response and the room is still stored.  In
    [house_stray] a device record has no [room_identifier]: [Room.delete]
    of [r1] is not answered at all, it raises [KeyError], before the
    deletion of [d1] and after it as well, and the room is still
    stored. *)
Lemma room_deletion_guard_counterexample :
  (shelf house2 !! (prefix room_repo +:+ "r1") = Some kitchen ∧
   shelf house2 !! (prefix device_repo +:+ "d1") = Some lamp ∧
   lamp !! "room_identifier" = kitchen !! "identifier" ∧
   ∃ σ1 σ2,
     Device_delete "d1" house2 = Ok (Empty, 204) σ1 ∧
     Room_delete "r1" σ1 =
       Ok (Message "Cannot delete a room that has devices", 400) σ2 ∧
     shelf σ2 !! (prefix room_repo +:+ "r1") = Some kitchen) ∧
  (shelf house_stray !! (prefix room_repo +:+ "r1") = Some kitchen ∧
   shelf house_stray !! (prefix device_repo +:+ "d1") = Some lamp ∧
   lamp !! "room_identifier" = kitchen !! "identifier" ∧
   (∃ σ0, Room_delete "r1" house_stray =
            Raise (KeyError "room_identifier") σ0) ∧
   ∃ σ1 σ2,
     Device_delete "d1" house_stray = Ok (Empty, 204) σ1 ∧
     Room_delete "r1" σ1 = Raise (KeyError "room_identifier") σ2 ∧
     shelf σ2 !! (prefix room_repo +:+ "r1") = Some kitchen).
Proof.
  split.
  - split; [reflexivity|]. split; [reflexivity|]. split; [reflexivity|].
    do 2 eexists. split; [vm_compute; reflexivity|].
    split; [vm_compute; reflexivity|]. reflexivity.
  - split; [reflexivity|]. split; [reflexivity|]. split; [reflexivity|].
    split; [eexists; vm_compute; reflexivity|].
    do 2 eexists. split; [vm_compute; reflexivity|].
    split; [vm_compute; reflexivity|]. reflexivity.
Qed.

(** C6, amended. Room deletion guard: on every state that stores room
    [R1] under [rid] and a device [D1] under [did] with
    [D1['room_identifier'] == rid], [Room.delete] of [rid] does not remove
    the room and leaves the shelf as it was: it is rejected with the 400
    response when every device record has a [room_identifier], and it
    raises [KeyError] for that field when some device record lacks it.
    [Device.delete] of [did] then answers 204 and removes the device's
    key only; if on the shelf it leaves no device record refers to [rid]
    ([unreferenced]: every device record has a [room_identifier], and
    none is [rid]), [Room.delete] of [rid] answers 204 and removes the
    room's key, after which [find(rid)] is [None]. *)
Theorem room_deletion_guard (rid did : string) (R1 D1 : record) (σ : state) :
  shelf σ !! (prefix room_repo +:+ rid) = Some R1 →
  shelf σ !! (prefix device_repo +:+ did) = Some D1 →
  D1 !! "room_identifier" = Some (SStr rid) →
  (∃ σ', shelf σ' = shelf σ ∧
     (all_have device_repo "room_identifier" (shelf σ) →
      Room_delete rid σ =
        Ok (Message "Cannot delete a room that has devices", 400) σ') ∧
     (¬ all_have device_repo "room_identifier" (shelf σ) →
      Room_delete rid σ = Raise (KeyError "room_identifier") σ')) ∧
  ∃ σ1,
    Device_delete did σ = Ok (Empty, 204) σ1 ∧
    shelf σ1 = delete (prefix device_repo +:+ did) (shelf σ) ∧
    (unreferenced rid (shelf σ1) →
     ∃ σ2,
       Room_delete rid σ1 = Ok (Empty, 204) σ2 ∧
       shelf σ2 = delete (prefix room_repo +:+ rid) (shelf σ1) ∧
       find room_repo rid σ2 = Ok None σ2).
Proof.
  intros HR HD Href. split.
  - set (σa := State (shelf σ) (heap σ ++ [unpickle R1])).
    exists (scanned device_repo σa). split; [done|]. split.
    + intros Hall.
      destruct (find_by_ok device_repo "room_identifier" (VStr rid) σa Hall)
        as (ls & Hrun & Hholds).
      rewrite (Room_delete_found _ _ _ _ HR Hrun).
      destruct ls as [|l ls]; [|done].
      apply Forall2_nil_inv_l in Hholds.
      assert (Hin : D1 ∈ filter (field_is "room_identifier" (VStr rid))
                      (collection device_repo (shelf σa)).*2).
      { apply list_elem_of_filter. split; [by apply field_is_stored|].
        apply list_elem_of_fmap. exists (prefix device_repo +:+ did, D1).
        split; [done|]. apply elem_of_collection. split; [|done].
        apply prefix_app. }
      rewrite Hholds in Hin. by apply elem_of_nil in Hin.
    + intros Hnot. apply map_not_Forall in Hnot as (k & r & Hk & Hbad);
        [|apply _].
      assert (Hp : String.prefix (prefix device_repo) k = true).
      { destruct (String.prefix (prefix device_repo) k); [done|].
        exfalso. apply Hbad. discriminate. }
      assert (Hf : r !! "room_identifier" = None).
      { destruct (r !! "room_identifier") eqn:E; [|done].
        exfalso. apply Hbad. eauto. }
      by rewrite (Room_delete_found _ _ _ _ HR
                    (find_by_raise device_repo _ (VStr rid) σa k r Hp Hk Hf)).
  - rewrite (Device_delete_found _ _ _ HD).
    set (sh1 := delete (prefix device_repo +:+ did) (shelf σ)).
    eexists. split; [done|]. split; [done|]. cbn [shelf heap]. fold sh1.
    intros Hun.
    assert (HR1 : sh1 !! (prefix room_repo +:+ rid) = Some R1).
    { unfold sh1. rewrite lookup_delete_ne; [done|].
      symmetry. apply room_device_keys_differ. }
    set (σ1 := State sh1 (heap σ ++ [unpickle D1])).
    set (σa := State sh1 (heap σ1 ++ [unpickle R1])).
    assert (Hall : all_have device_repo "room_identifier" (shelf σa)).
    { intros k r Hk Hp. by destruct (Hun k r Hk Hp). }
    destruct (find_by_ok device_repo "room_identifier" (VStr rid) σa Hall)
      as (ls & Hrun & Hholds).
    rewrite (Room_delete_found _ R1 σ1 _ HR1 Hrun).
    rewrite filter_none in Hholds.
    + apply Forall2_nil_inv_r in Hholds as ->.
      unfold bind, delete_, shelf_delitem. cbn [shelf heap scanned σa].
      rewrite HR1.
      eexists. split; [done|]. split; [done|].
      rewrite find_spec. cbn [shelf heap]. by rewrite lookup_delete_eq.
    + apply Forall_fmap, Forall_forall. intros [k r] Hin.
      apply elem_of_collection in Hin as [Hp Hk]. simpl.
      rewrite field_is_stored. by destruct (Hun k r Hk Hp).
Qed.

Lemma room_deletion_guard_witness :
  shelf house !! (prefix room_repo +:+ "r1") = Some kitchen ∧
  shelf house !! (prefix device_repo +:+ "d1") = Some lamp ∧
  lamp !! "room_identifier" = Some (SStr "r1") ∧
  (∃ σ', shelf σ' = shelf house ∧
     Room_delete "r1" house =
       Ok (Message "Cannot delete a room that has devices", 400) σ') ∧
  (∃ σ1 σ2,
     Device_delete "d1" house = Ok (Empty, 204) σ1 ∧
     Room_delete "r1" σ1 = Ok (Empty, 204) σ2 ∧
     find room_repo "r1" σ2 = Ok None σ2) ∧
  (∃ σ', shelf σ' = shelf house_stray ∧
     Room_delete "r1" house_stray = Raise (KeyError "room_identifier") σ').
Proof.
  assert (H1 : shelf house !! (prefix room_repo +:+ "r1") = Some kitchen)
    by reflexivity.
  assert (H2 : shelf house !! (prefix device_repo +:+ "d1") = Some lamp)
    by reflexivity.
  assert (H3 : lamp !! "room_identifier" = Some (SStr "r1")) by reflexivity.
  split; [exact H1|]. split; [exact H2|]. split; [exact H3|].
  destruct (room_deletion_guard "r1" "d1" kitchen lamp house H1 H2 H3)
    as [(σ' & Hsh & H400 & _) (σ1 & Hdel & Hsh1 & Hroom)].
  split; [|split].
  - exists σ'. split; [exact Hsh|]. apply H400.
    apply (bool_decide_unpack _). vm_compute. exact I.
  - destruct Hroom as (σ2 & Hgo & _ & Hgone).
    + rewrite Hsh1. apply (bool_decide_unpack _). vm_compute. exact I.
    + exists σ1, σ2. auto.
  - assert (K1 : shelf house_stray !! (prefix room_repo +:+ "r1")
                 = Some kitchen) by reflexivity.
    assert (K2 : shelf house_stray !! (prefix device_repo +:+ "d1")
                 = Some lamp) by reflexivity.
    destruct (room_deletion_guard "r1" "d1" kitchen lamp house_stray K1 K2 H3)
      as [(σs & Hshs & _ & Hraise) _].
    exists σs. split; [exact Hshs|]. apply Hraise.
    apply (bool_decide_unpack _). vm_compute. exact I.
Defined.

(** * Further properties *)

(** ** More basic facts *)

Lemma final_bind {A B} (m : M A) (k : A → M B) σ :
  final (bind m k σ) =
  match m σ with
  | Ok a σ' => final (k a σ')
  | Raise _ σ' => σ'
  end.
Proof. unfold bind. by destruct (m σ). Qed.

Lemma app_inj_prefix (p x y : string) : p +:+ x = p +:+ y → x = y.
Proof. induction p as [|a p IH]; simpl; [done|]. intros [=]. auto. Qed.

Lemma args_str_preserving args field : shelf_preserving (args_str args field).
Proof.
  unfold args_str. destruct (args !! field) as [[|s]|]; auto with shelf_frame.
Qed.

Lemma decorate_all_with_room_preserving devices :
  shelf_preserving (decorate_all_with_room devices).
Proof.
  induction devices; simpl; [auto with shelf_frame|].
  apply bind_preserving; [apply decorate_with_room_preserving|done].
Qed.

Lemma decorate_all_with_devices_preserving rooms :
  shelf_preserving (decorate_all_with_devices rooms).
Proof.
  induction rooms; simpl; [auto with shelf_frame|].
  apply bind_preserving; [apply decorate_with_devices_preserving|done].
Qed.

Lemma DeviceList_get_preserving : shelf_preserving DeviceList_get.
Proof.
  unfold DeviceList_get. apply bind_preserving; [auto with shelf_frame|].
  intros ls. apply bind_preserving;
    [apply decorate_all_with_room_preserving|auto with shelf_frame].
Qed.

Lemma RoomList_get_preserving : shelf_preserving RoomList_get.
Proof.
  unfold RoomList_get. apply bind_preserving; [auto with shelf_frame|].
  intros ls. apply bind_preserving;
    [apply decorate_all_with_devices_preserving|auto with shelf_frame].
Qed.

Lemma Device_get_preserving i : shelf_preserving (Device_get i).
Proof.
  unfold Device_get. apply bind_preserving; [auto with shelf_frame|].
  intros [d|]; [|auto with shelf_frame].
  apply bind_preserving;
    [apply decorate_with_room_preserving|auto with shelf_frame].
Qed.

Lemma Room_get_preserving i : shelf_preserving (Room_get i).
Proof.
  unfold Room_get. apply bind_preserving; [auto with shelf_frame|].
  intros [r|]; [|auto with shelf_frame].
  apply bind_preserving;
    [apply decorate_with_devices_preserving|auto with shelf_frame].
Qed.

(** ** The shelf a handler leaves *)

Lemma DeviceList_post_shelf args σ :
  shelf (final (DeviceList_post args σ)) = shelf σ ∨
  ∃ i rid,
    args !! "identifier" = Some (SStr i) ∧
    args !! "room_identifier" = Some (SStr rid) ∧
    is_Some (shelf σ !! (prefix room_repo +:+ rid)) ∧
    shelf (final (DeviceList_post args σ)) =
      <[prefix device_repo +:+ i := args]> (shelf σ).
Proof.
  remember (shelf (final (DeviceList_post args σ))) as X eqn:HX.
  unfold DeviceList_post in HX. rewrite final_bind in HX.
  unfold args_str at 1 in HX.
  destruct (args !! "room_identifier") as [[|rid]|] eqn:Hrid;
    [by left| |by left].
  unfold ret at 1 in HX. rewrite final_bind, find_spec in HX.
  destruct (shelf σ !! (prefix room_repo +:+ rid)) as [R|] eqn:HR;
    [|by left].
  rewrite final_bind in HX. unfold save in HX.
  destruct (args !! "identifier") as [[|i]|] eqn:Hid; [by left| |by left].
  unfold shelf_setitem in HX. right. exists i, rid.
  split; [done|]. split; [done|]. split; [by eexists|].
  rewrite HX.
  match goal with |- shelf (final (?m ?s)) = _ =>
    assert (Hp : shelf_preserving m); [|by rewrite Hp] end.
  apply bind_preserving; [apply args_str_preserving|]. intros ident.
  apply bind_preserving; [auto with shelf_frame|]. intros [d|];
    [|auto with shelf_frame].
  apply bind_preserving;
    [apply decorate_with_room_preserving|auto with shelf_frame].
Qed.

Lemma RoomList_post_shelf args σ :
  shelf (final (RoomList_post args σ)) = shelf σ ∨
  ∃ i,
    args !! "identifier" = Some (SStr i) ∧
    shelf (final (RoomList_post args σ)) =
      <[prefix room_repo +:+ i := args]> (shelf σ).
Proof.
  remember (shelf (final (RoomList_post args σ))) as X eqn:HX.
  unfold RoomList_post in HX. rewrite final_bind in HX. unfold save in HX.
  destruct (args !! "identifier") as [[|i]|] eqn:Hid; [by left| |by left].
  unfold shelf_setitem in HX. right. exists i. split; [done|].
  rewrite HX.
  match goal with |- shelf (final (?m ?s)) = _ =>
    assert (Hp : shelf_preserving m); [|by rewrite Hp] end.
  apply bind_preserving; [apply args_str_preserving|]. intros ident.
  apply bind_preserving; [auto with shelf_frame|]. intros [d|];
    [|auto with shelf_frame].
  apply bind_preserving;
    [apply decorate_with_devices_preserving|auto with shelf_frame].
Qed.

Lemma Device_delete_shelf i σ :
  shelf (final (Device_delete i σ)) = shelf σ ∨
  shelf (final (Device_delete i σ)) =
    delete (prefix device_repo +:+ i) (shelf σ).
Proof.
  destruct (shelf σ !! (prefix device_repo +:+ i)) as [D|] eqn:HD.
  - right. by rewrite (Device_delete_found _ _ _ HD).
  - left. unfold Device_delete. by rewrite final_bind, find_spec, HD.
Qed.

Lemma find_by_nil_inv repo field value σ σ' :
  find_by repo field value σ = Ok [] σ' →
  Forall (λ r : record, is_Some (r !! field) ∧ ¬ field_is field value r)
         (collection repo (shelf σ)).*2.
Proof.
  intros Hrun.
  destruct (decide (all_have repo field (shelf σ))) as [Hall|Hnot].
  - destruct (find_by_ok repo field value σ Hall) as (ls & Hrun' & Hholds).
    rewrite Hrun in Hrun'. injection Hrun' as <- _.
    apply Forall2_nil_inv_l in Hholds.
    apply Forall_fmap, Forall_forall. intros [k r] Hin. simpl. split.
    + apply elem_of_collection in Hin as [Hp Hk]. by apply (Hall k).
    + intros Hf.
      assert (Hr : r ∈ filter (field_is field value)
                     (collection repo (shelf σ)).*2).
      { apply list_elem_of_filter. split; [done|].
        apply list_elem_of_fmap. by exists (k, r). }
      rewrite Hholds in Hr. by apply elem_of_nil in Hr.
  - apply map_not_Forall in Hnot as (k & r & Hk & Hbad); [|apply _].
    assert (Hp : String.prefix (prefix repo) k = true).
    { destruct (String.prefix (prefix repo) k); [done|].
      exfalso. apply Hbad. discriminate. }
    assert (Hf : r !! field = None).
    { destruct (r !! field) eqn:E; [|done]. exfalso. apply Hbad. eauto. }
    by rewrite (find_by_raise repo field value σ k r Hp Hk Hf) in Hrun.
Qed.

Lemma Room_delete_shelf rid σ :
  shelf (final (Room_delete rid σ)) = shelf σ ∨
  (shelf (final (Room_delete rid σ)) =
     delete (prefix room_repo +:+ rid) (shelf σ) ∧
   unreferenced rid (shelf σ)).
Proof.
  destruct (shelf σ !! (prefix room_repo +:+ rid)) as [R|] eqn:HR.
  - rewrite (Room_delete_found _ _ _ _ HR eq_refl).
    pose proof (find_by_preserving device_repo "room_identifier" (VStr rid)
                  (State (shelf σ) (heap σ ++ [unpickle R]))) as Hsh.
    destruct (find_by _ _ _ _) as [[|d ds] σ'|e σ'] eqn:Hrun;
      cbn [final shelf] in Hsh; [|by left|by left].
    right. apply find_by_nil_inv in Hrun. cbn [shelf] in Hrun. split.
    + rewrite final_bind. unfold delete_, shelf_delitem.
      by rewrite Hsh, HR.
    + intros k r Hk Hp.
      assert (Hin : r ∈ (collection device_repo (shelf σ)).*2).
      { apply list_elem_of_fmap. exists (k, r). split; [done|].
        by apply elem_of_collection. }
      apply (proj1 (Forall_forall _ _) Hrun) in Hin as [Hsome Hne].
      split; [done|]. intros Heq. by apply Hne, field_is_stored.
  - left. unfold Room_delete. by rewrite final_bind, find_spec, HR.
Qed.

(** ** Invariants of the shelf *)

Lemma well_keyed_insert_own repo (sh : gmap string record) i (r : record) :
  well_keyed repo sh →
  r !! "identifier" = Some (SStr i) →
  well_keyed repo (<[prefix repo +:+ i := r]> sh).
Proof.
  intros Hwk Hid. apply map_Forall_insert_2; [|done].
  intros _. unfold keyed. by rewrite Hid.
Qed.

Lemma well_keyed_insert_other repo (sh : gmap string record) k (r : record) :
  well_keyed repo sh →
  String.prefix (prefix repo) k = false →
  well_keyed repo (<[k := r]> sh).
Proof.
  intros Hwk Hp. apply map_Forall_insert_2; [|done]. congruence.
Qed.

Lemma refers_to_room_mono (sh sh' : gmap string record) (d : record) :
  (∀ rid, is_Some (sh !! (prefix room_repo +:+ rid)) →
          is_Some (sh' !! (prefix room_repo +:+ rid))) →
  refers_to_room sh d → refers_to_room sh' d.
Proof.
  intros Hmono. unfold refers_to_room.
  destruct (d !! "room_identifier") as [[|rid]|]; auto.
Qed.

Lemma referential_insert_device (sh : gmap string record) i rid
    (args : record) :
  referential sh →
  args !! "room_identifier" = Some (SStr rid) →
  is_Some (sh !! (prefix room_repo +:+ rid)) →
  referential (<[prefix device_repo +:+ i := args]> sh).
Proof.
  intros Href Hrid Hroom.
  assert (Hmono : ∀ rid', is_Some (sh !! (prefix room_repo +:+ rid')) →
            is_Some (<[prefix device_repo +:+ i := args]> sh
                       !! (prefix room_repo +:+ rid'))).
  { intros rid' H. rewrite lookup_insert_ne; [done|].
    symmetry. apply room_device_keys_differ. }
  intros k d Hk Hp. apply lookup_insert_Some in Hk as [[_ <-]|[_ Hk]].
  - unfold refers_to_room. rewrite Hrid. by apply Hmono.
  - apply (refers_to_room_mono sh); [done|]. by apply (Href k).
Qed.

Lemma referential_insert_room (sh : gmap string record) i (args : record) :
  referential sh →
  referential (<[prefix room_repo +:+ i := args]> sh).
Proof.
  intros Href k d Hk Hp. apply lookup_insert_Some in Hk as [[<- _]|[_ Hk]].
  - by rewrite room_key_not_device in Hp.
  - apply (refers_to_room_mono sh); [|by apply (Href k)].
    intros rid' H. rewrite lookup_insert_is_Some.
    destruct (decide (prefix room_repo +:+ i = prefix room_repo +:+ rid'));
      [by left|by right].
Qed.

Lemma referential_delete_device (sh : gmap string record) i :
  referential sh →
  referential (delete (prefix device_repo +:+ i) sh).
Proof.
  intros Href k d Hk Hp. apply lookup_delete_Some in Hk as [_ Hk].
  apply (refers_to_room_mono sh); [|by apply (Href k)].
  intros rid' H. rewrite lookup_delete_ne; [done|].
  symmetry. apply room_device_keys_differ.
Qed.

Lemma referential_delete_room (sh : gmap string record) rid :
  referential sh →
  unreferenced rid sh →
  referential (delete (prefix room_repo +:+ rid) sh).
Proof.
  intros Href Hun k d Hk Hp. apply lookup_delete_Some in Hk as [_ Hk].
  specialize (Href k d Hk Hp). destruct (Hun k d Hk Hp) as [_ Hne].
  unfold refers_to_room in *.
  destruct (d !! "room_identifier") as [[|rid']|]; [done| |done].
  rewrite lookup_delete_ne; [done|].
  intros Heq. apply app_inj_prefix in Heq. congruence.
Qed.

Lemma handle_well_keyed rq σ :
  well_keyed device_repo (shelf σ) ∧ well_keyed room_repo (shelf σ) →
  well_keyed device_repo (shelf (handle rq σ)) ∧
  well_keyed room_repo (shelf (handle rq σ)).
Proof.
  intros [Hd Hr]. destruct rq as [|args|i|i| |args|i|i]; simpl.
  - by rewrite DeviceList_get_preserving.
  - destruct (DeviceList_post_shelf args σ)
      as [->|(i & rid & Hid & _ & _ & ->)]; [done|]. split.
    + by apply well_keyed_insert_own.
    + apply well_keyed_insert_other; [done|apply device_key_not_room].
  - by rewrite Device_get_preserving.
  - destruct (Device_delete_shelf i σ) as [->| ->]; [done|].
    split; by apply map_Forall_delete.
  - by rewrite RoomList_get_preserving.
  - destruct (RoomList_post_shelf args σ) as [->|(i & Hid & ->)]; [done|].
    split.
    + apply well_keyed_insert_other; [done|apply room_key_not_device].
    + by apply well_keyed_insert_own.
  - by rewrite Room_get_preserving.
  - destruct (Room_delete_shelf i σ) as [->|[-> _]]; [done|].
    split; by apply map_Forall_delete.
Qed.

Lemma handle_referential rq σ :
  referential (shelf σ) → referential (shelf (handle rq σ)).
Proof.
  intros Href. destruct rq as [|args|i|i| |args|i|i]; simpl.
  - by rewrite DeviceList_get_preserving.
  - destruct (DeviceList_post_shelf args σ)
      as [->|(i & rid & _ & Hrid & Hroom & ->)]; [done|].
    by apply (referential_insert_device _ _ rid).
  - by rewrite Device_get_preserving.
  - destruct (Device_delete_shelf i σ) as [->| ->]; [done|].
    by apply referential_delete_device.
  - by rewrite RoomList_get_preserving.
  - destruct (RoomList_post_shelf args σ) as [->|(i & _ & ->)]; [done|].
    by apply referential_insert_room.
  - by rewrite Room_get_preserving.
  - destruct (Room_delete_shelf i σ) as [->|[-> Hun]]; [done|].
    by apply referential_delete_room.
Qed.

(** ** Over any sequence of requests *)

(** X1. Referential integrity is kept by the handlers: if every device
    record of the shelf names a stored room, then so does every device
    record of the shelf left by any sequence of requests, whichever of
    them are answered with an error or raise. *)
Theorem serve_referential (rqs : list request) (σ : state) :
  referential (shelf σ) → referential (shelf (serve rqs σ)).
Proof.
  revert σ. induction rqs as [|rq rqs IH]; intros σ Href; [done|].
  apply IH. by apply handle_referential.
Qed.

Lemma serve_referential_witness :
  referential (shelf house) ∧
  referential
    (shelf (serve [POST_devices fan; DELETE_room "r1"; DELETE_device "d1";
                   POST_devices stray; GET_rooms] house)).
Proof.
  assert (H : referential (shelf house))
    by (apply (bool_decide_unpack _); vm_compute; exact I).
  split; [exact H|]. exact (serve_referential _ house H).
Defined.

(** X2. Records stay under the key of their identifier: if every device
    record and every room record of the shelf is stored under its prefix
    followed by its own ['identifier'], the same holds of the shelf left by
    any sequence of requests. *)
Theorem serve_well_keyed (rqs : list request) (σ : state) :
  well_keyed device_repo (shelf σ) →
  well_keyed room_repo (shelf σ) →
  well_keyed device_repo (shelf (serve rqs σ)) ∧
  well_keyed room_repo (shelf (serve rqs σ)).
Proof.
  revert σ. induction rqs as [|rq rqs IH]; intros σ Hd Hr; [done|].
  destruct (handle_well_keyed rq σ (conj Hd Hr)) as [Hd' Hr'].
  by apply IH.
Qed.

Lemma serve_well_keyed_witness :
  well_keyed device_repo (shelf house) ∧
  well_keyed room_repo (shelf house) ∧
  well_keyed device_repo
    (shelf (serve [POST_rooms heater; POST_devices heater;
                   DELETE_device "d1"] house)) ∧
  well_keyed room_repo
    (shelf (serve [POST_rooms heater; POST_devices heater;
                   DELETE_device "d1"] house)).
Proof.
  assert (H1 : well_keyed device_repo (shelf house))
    by (apply (bool_decide_unpack _); vm_compute; exact I).
  assert (H2 : well_keyed room_repo (shelf house))
    by (apply (bool_decide_unpack _); vm_compute; exact I).
  split; [exact H1|]. split; [exact H2|].
  exact (serve_well_keyed _ house H1 H2).
Defined.

(** ** The repository, further *)

(** X3. On a shelf whose records are stored under the key of their
    identifier, the object [repo.find(i)] returns has [i] as its
    ['identifier']. *)
Theorem find_identifier (repo : Repository) (i : string) (σ σ' : state)
    (l : loc) :
  well_keyed repo (shelf σ) →
  find repo i σ = Ok (Some l) σ' →
  ∃ o, heap σ' !! l = Some o ∧ o !! "identifier" = Some (VStr i).
Proof.
  intros Hwk. rewrite find_spec.
  destruct (shelf σ !! (prefix repo +:+ i)) as [r|] eqn:Hr; [|done].
  intros [= <- <-]. exists (unpickle r).
  split; [by apply list_lookup_middle|].
  specialize (Hwk _ _ Hr (prefix_app _ _)). unfold keyed in Hwk.
  destruct (r !! "identifier") as [[|j]|] eqn:Hid; [done| |done].
  apply app_inj_prefix in Hwk as ->.
  unfold unpickle. by rewrite lookup_fmap, Hid.
Qed.

Lemma find_identifier_witness :
  well_keyed device_repo (shelf house) ∧
  find device_repo "d1" house =
    Ok (Some 0) (State (shelf house) [unpickle lamp]) ∧
  ∃ o, heap (State (shelf house) [unpickle lamp]) !! 0 = Some o ∧
       o !! "identifier" = Some (VStr "d1").
Proof.
  assert (H1 : well_keyed device_repo (shelf house))
    by (apply (bool_decide_unpack _); vm_compute; exact I).
  assert (H2 : find device_repo "d1" house =
               Ok (Some 0) (State (shelf house) [unpickle lamp]))
    by (vm_compute; reflexivity).
  split; [exact H1|]. split; [exact H2|].
  exact (find_identifier device_repo "d1" house _ 0 H1 H2).
Defined.

(** X4. [find_all] never raises and never writes the shelf.  It returns
    one object per entry of the shelf whose key starts with the prefix
    (each key once, no other entry), holding that entry's record; the
    objects are new and distinct, and the objects that were on the heap
    are as they were. *)
Theorem find_all_correct (repo : Repository) (σ : state) :
  ∃ ls σ' krs,
    find_all repo σ = Ok ls σ' ∧
    shelf σ' = shelf σ ∧
    holds σ' ls krs.*2 ∧
    NoDup krs.*1 ∧
    (∀ k r, (k, r) ∈ krs ↔
            String.prefix (prefix repo) k = true ∧ shelf σ !! k = Some r) ∧
    NoDup ls ∧
    Forall (λ l, heap σ !! l = None) ls ∧
    ∀ l o, heap σ !! l = Some o → heap σ' !! l = Some o.
Proof.
  exists (seq (length (heap σ)) (length (collection repo (shelf σ)))),
         (scanned repo σ), (collection repo (shelf σ)).
  split; [apply find_all_spec|]. split; [done|]. split.
  { rewrite <- (length_fmap snd). by apply (holds_alloc (heap σ)). }
  split; [apply NoDup_collection_keys|].
  split; [intros k r; apply elem_of_collection|].
  split; [apply NoDup_seq|]. split.
  - apply Forall_forall. intros l Hl. apply elem_of_seq in Hl.
    apply lookup_ge_None. lia.
  - intros l o Hl. by apply lookup_app_l_Some.
Qed.

(** X5. Saving under an identifier that is already taken overwrites:
    [find_all()] returns as many records after the save as before, and
    two saves of records with the same identifier leave the state the
    second one alone leaves. *)
Theorem save_overwrites (repo : Repository) (r1 r2 : record) (i : string)
    (σ : state) :
  r1 !! "identifier" = Some (SStr i) →
  r2 !! "identifier" = Some (SStr i) →
  (save repo r1;; save repo r2) σ = save repo r2 σ ∧
  (is_Some (shelf σ !! (prefix repo +:+ i)) →
   ∃ σ' before after,
     save repo r2 σ = Ok () σ' ∧
     find_all_result repo σ = Some before ∧
     find_all_result repo σ' = Some after ∧
     length after = length before).
Proof.
  intros H1 H2. split.
  - unfold bind, save. rewrite H1, H2. unfold shelf_setitem.
    cbn [shelf heap]. by rewrite insert_insert_eq.
  - intros [old Hold]. unfold save. rewrite H2. unfold shelf_setitem.
    eexists _, _, _. split; [done|].
    split; [apply find_all_result_spec|].
    split; [apply find_all_result_spec|]. cbn [shelf].
    rewrite !length_fmap.
    rewrite collection_insert, (collection_delete repo _ _ _ Hold).
    by rewrite !collection_own_key.
Qed.

Lemma save_overwrites_witness :
  lamp !! "identifier" = Some (SStr "d1") ∧
  (<["name" := SStr "Desk lamp"]> lamp) !! "identifier" = Some (SStr "d1") ∧
  (save device_repo lamp;;
   save device_repo (<["name" := SStr "Desk lamp"]> lamp)) house =
    save device_repo (<["name" := SStr "Desk lamp"]> lamp) house.
Proof.
  assert (H1 : lamp !! "identifier" = Some (SStr "d1")) by reflexivity.
  assert (H2 : (<["name" := SStr "Desk lamp"]> lamp) !! "identifier"
               = Some (SStr "d1")) by reflexivity.
  split; [exact H1|]. split; [exact H2|].
  exact (proj1 (save_overwrites device_repo lamp _ "d1" house H1 H2)).
Defined.

(** ** The decorators, in general *)

Lemma decorate_with_room_absent repo d σ (o : pyobj) rid :
  heap σ !! d = Some o →
  o !! "room_identifier" = Some (VStr rid) →
  shelf σ !! (prefix repo +:+ rid) = None →
  decorate_with_room repo d σ =
  Ok () (State (shelf σ)
           (<[d := delete "room_identifier" (<["room" := VNone]> o)]>
              (heap σ))).
Proof.
  intros Hd Hrid HR. pose proof (lookup_lt_Some _ _ _ Hd) as Hlt.
  unfold decorate_with_room, bind.
  unfold obj_getitem. rewrite Hd, Hrid.
  rewrite find_spec, HR.
  unfold obj_setitem. rewrite Hd.
  unfold obj_delitem. cbn [shelf heap].
  rewrite list_lookup_insert_eq by done.
  rewrite lookup_insert_ne by done. rewrite Hrid.
  by rewrite list_insert_insert_eq.
Qed.

Lemma decorate_with_room_raises repo d σ :
  (∀ o rid, heap σ !! d = Some o →
            o !! "room_identifier" ≠ Some (VStr rid)) →
  ∃ e, decorate_with_room repo d σ = Raise e σ.
Proof.
  intros Hno. unfold decorate_with_room, bind, obj_getitem.
  destruct (heap σ !! d) as [o|] eqn:Hd; [|by eexists].
  destruct (o !! "room_identifier") as [[|rid| |]|] eqn:Hrid;
    try by eexists.
  by destruct (Hno o rid).
Qed.

(** X6. [decorate_with_room] either raises before it has changed
    anything, which it does exactly when the object has no string
    [room_identifier], or returns having replaced, on that object alone,
    the [room_identifier] [rid] by a [room] field: a reference to a new
    object (one that was not on the heap) holding the room stored for
    [rid], or [None] when no room is stored for [rid].  The shelf and the
    other objects are as they were. *)
Theorem decorate_with_room_outcome (d : loc) (σ : state) :
  match decorate_with_room room_repo d σ with
  | Ok _ σ' =>
      ∃ o rid v,
        heap σ !! d = Some o ∧
        o !! "room_identifier" = Some (VStr rid) ∧
        shelf σ' = shelf σ ∧
        heap σ' !! d =
          Some (delete "room_identifier" (<["room" := v]> o)) ∧
        room_view σ' (shelf σ) rid v ∧
        (∀ l0, v = VRef l0 → heap σ !! l0 = None) ∧
        ∀ l, l ≠ d → l < length (heap σ) → heap σ' !! l = heap σ !! l
  | Raise _ σ' =>
      σ' = σ ∧
      ∀ o rid, heap σ !! d = Some o →
               o !! "room_identifier" ≠ Some (VStr rid)
  end.
Proof.
  destruct (heap σ !! d) as [o|] eqn:Hd.
  - destruct (o !! "room_identifier") as [[|rid| |]|] eqn:Hrid.
    2: { pose proof (lookup_lt_Some _ _ _ Hd) as Hlt.
         destruct (shelf σ !! (prefix room_repo +:+ rid)) as [R|] eqn:HR.
         - rewrite (decorate_with_room_found _ _ _ _ _ _ Hd Hrid HR).
           exists o, rid, (VRef (length (heap σ))).
           split; [done|]. split; [done|]. split; [done|]. cbn [heap].
           split; [apply list_lookup_insert_eq; rewrite length_app; lia|].
           split; [|split].
           + unfold room_view. rewrite HR. eexists. split; [done|].
             cbn [heap]. rewrite list_lookup_insert_ne by lia.
             by apply list_lookup_middle.
           + intros l0 [= <-]. by apply lookup_ge_None.
           + intros l Hne Hl. rewrite list_lookup_insert_ne by done.
             by apply lookup_app_l.
         - rewrite (decorate_with_room_absent _ _ _ _ _ Hd Hrid HR).
           exists o, rid, VNone.
           split; [done|]. split; [done|]. split; [done|]. cbn [heap].
           split; [by apply list_lookup_insert_eq|]. split; [|split].
           + unfold room_view. by rewrite HR.
           + by intros l0 [=].
           + intros l Hne Hl. by apply list_lookup_insert_ne. }
    all: assert (Hno : ∀ o' rid', heap σ !! d = Some o' →
                         o' !! "room_identifier" ≠ Some (VStr rid'))
      by (intros o' rid' Hd'; rewrite Hd in Hd'; injection Hd' as <-;
          by rewrite Hrid);
      destruct (decorate_with_room_raises room_repo d σ Hno) as [e ->];
      split; [done|]; intros o0 rid0 [= <-]; by rewrite Hrid.
  - assert (Hno : ∀ o' rid', heap σ !! d = Some o' →
                    o' !! "room_identifier" ≠ Some (VStr rid'))
      by (intros o' rid' Hd'; by rewrite Hd in Hd').
    destruct (decorate_with_room_raises room_repo d σ Hno) as [e ->].
    split; [done|]. by intros o0 rid0 [=].
Qed.

Lemma find_by_ok_fresh repo field value σ :
  all_have repo field (shelf σ) →
  ∃ ls, find_by repo field value σ = Ok ls (scanned repo σ) ∧
        holds (scanned repo σ) ls
          (filter (field_is field value) (collection repo (shelf σ)).*2) ∧
        ls `sublist_of`
          seq (length (heap σ)) (length (collection repo (shelf σ))).
Proof.
  intros Hall.
  set (c := collection repo (shelf σ)).
  assert (Hholds : holds (scanned repo σ)
                     (seq (length (heap σ)) (length c.*2)) c.*2)
    by by apply (holds_alloc (heap σ)).
  assert (Hfields : Forall (λ r : record, is_Some (r !! field)) c.*2).
  { apply Forall_fmap, Forall_forall. intros [k r] Hin.
    apply elem_of_collection in Hin as [Hp Hk]. simpl. by apply (Hall k). }
  eexists. split; [|split].
  - unfold find_by, bind. rewrite find_all_spec. fold c.
    rewrite <- (length_fmap snd c).
    by rewrite (find_by_loop_ok _ _ _ _ _ Hholds Hfields).
  - simpl. by apply holds_filter_zip.
  - simpl. rewrite <- (length_fmap snd c).
    rewrite <- (fst_zip (seq (length (heap σ)) (length c.*2)) c.*2) at 2
      by (rewrite length_seq; lia).
    apply fmap_sublist, sublist_filter.
Qed.

Lemma Forall2_impl_elem {A B} (P Q : A → B → Prop) (l : list A)
    (k : list B) :
  Forall2 P l k →
  (∀ x y, x ∈ l → P x y → Q x y) →
  Forall2 Q l k.
Proof.
  induction 1 as [|x y l k Hxy Hrest IH]; intros Himp; constructor.
  - apply Himp; [apply list_elem_of_here|done].
  - apply IH. intros x' y' Hin. apply Himp. by apply list_elem_of_further.
Qed.

Lemma strip_room_identifier_spec σ ls (rs : list record) :
  holds σ ls rs →
  NoDup ls →
  Forall (λ r : record, is_Some (r !! "room_identifier")) rs →
  ∃ σ', strip_room_identifier ls σ = Ok () σ' ∧
        shelf σ' = shelf σ ∧
        length (heap σ') = length (heap σ) ∧
        holds_stripped σ' ls rs ∧
        ∀ l, l ∉ ls → heap σ' !! l = heap σ !! l.
Proof.
  intros Hholds. revert σ Hholds.
  induction ls as [|l ls IH] in rs |- *; intros σ Hholds Hnd Hall.
  - apply Forall2_nil_inv_l in Hholds as ->.
    exists σ. split; [done|]. split; [done|]. split; [done|].
    split; [constructor|done].
  - apply Forall2_cons_inv_l in Hholds as (r & rs' & Hl & Hrest & ->).
    apply NoDup_cons in Hnd as [Hnotin Hnd].
    apply Forall_cons in Hall as [[x Hx] Hall].
    pose proof (lookup_lt_Some _ _ _ Hl) as Hlt.
    set (σ1 := State (shelf σ)
                 (<[l := delete "room_identifier" (unpickle r)]> (heap σ))).
    assert (Hstep : obj_delitem l "room_identifier" σ = Ok () σ1).
    { unfold obj_delitem. rewrite Hl. unfold unpickle at 1.
      by rewrite lookup_fmap, Hx. }
    destruct (IH rs' σ1) as (σ' & Hrun & Hsh & Hlen & Hstr & Hframe);
      [|done|done|].
    { apply (Forall2_impl_elem _ _ _ _ Hrest).
      intros l' r' Hin Hl'. cbn [heap σ1].
      rewrite list_lookup_insert_ne; [done|]. intros ->. done. }
    exists σ'. split; [|split; [done|split; [|split]]].
    + simpl. unfold bind. by rewrite Hstep.
    + rewrite Hlen. cbn [heap σ1]. by rewrite length_insert.
    + constructor; [|done]. rewrite (Hframe l Hnotin). cbn [heap σ1].
      by apply list_lookup_insert_eq.
    + intros l' Hl'. apply not_elem_of_cons in Hl' as [Hne Hl'].
      rewrite (Hframe l' Hl'). cbn [heap σ1].
      by apply list_lookup_insert_ne.
Qed.

Lemma decorate_with_devices_spec r σ (o : pyobj) v :
  heap σ !! r = Some o →
  o !! "identifier" = Some v →
  all_have device_repo "room_identifier" (shelf σ) →
  ∃ ls σ',
    decorate_with_devices device_repo r σ = Ok () σ' ∧
    shelf σ' = shelf σ ∧
    heap σ' !! r = Some (<["devices" := VList ls]> o) ∧
    holds_stripped σ' ls (devices_of v (shelf σ)) ∧
    (∀ l : loc, l ∈ ls → (length (heap σ) ≤ l)%nat) ∧
    (∀ l, l ≠ r → l < length (heap σ) → heap σ' !! l = heap σ !! l) ∧
    (length (heap σ) ≤ length (heap σ'))%nat.
Proof.
  intros Hr Hid Hall. pose proof (lookup_lt_Some _ _ _ Hr) as Hlt.
  destruct (find_by_ok_fresh device_repo "room_identifier" v σ Hall)
    as (ls & Hrun & Hholds & Hsub).
  assert (Hnd : NoDup ls) by (eapply sublist_NoDup; [apply NoDup_seq|done]).
  assert (Hge : ∀ l : loc, l ∈ ls → (length (heap σ) ≤ l)%nat).
  { intros l Hl. eapply elem_of_sublist in Hl; [|done].
    apply elem_of_seq in Hl. lia. }
  destruct (strip_room_identifier_spec _ _ _ Hholds Hnd)
    as (σ2 & Hstrip & Hsh2 & Hlen2 & Hstr & Hframe).
  { apply Forall_forall. intros D HD.
    apply list_elem_of_filter in HD as [_ HD].
    apply list_elem_of_fmap in HD as ([k D'] & -> & HD).
    apply elem_of_collection in HD as [Hp Hk]. by apply (Hall k). }
  assert (Hr2 : heap σ2 !! r = Some o).
  { rewrite Hframe; [by apply lookup_app_l_Some|].
    intros Hin. apply Hge in Hin. lia. }
  exists ls. eexists. split; [|split; [|split; [|split; [|split; [|split]]]]].
  - unfold decorate_with_devices, bind.
    unfold obj_getitem. rewrite Hr, Hid. rewrite Hrun, Hstrip.
    unfold obj_setitem. by rewrite Hr2.
  - done.
  - cbn [heap]. apply list_lookup_insert_eq. by apply lookup_lt_Some in Hr2.
  - apply (Forall2_impl_elem _ _ _ _ Hstr).
    intros l D Hin Hl. cbn [heap].
    rewrite list_lookup_insert_ne; [done|].
    intros ->. apply Hge in Hin. lia.
  - done.
  - intros l Hne Hl. cbn [heap].
    rewrite list_lookup_insert_ne by done.
    rewrite Hframe; [by apply lookup_app_l|].
    intros Hin. apply Hge in Hin. lia.
  - cbn [heap]. rewrite length_insert, Hlen2. cbn [heap scanned].
    rewrite length_app. lia.
Qed.

(** X7. [decorate_with_devices], on a room object that has an
    ['identifier'] [v] and a device collection in which every record has a
    [room_identifier], returns having set on that object alone the field
    [devices]: a list of new objects that hold, one for one, the device
    records whose [room_identifier] equals [v], each without its
    [room_identifier].  The shelf and the other objects are as they
    were. *)
Theorem decorate_with_devices_general (r : loc) (σ : state) (o : pyobj)
    (v : pyval) :
  heap σ !! r = Some o →
  o !! "identifier" = Some v →
  all_have device_repo "room_identifier" (shelf σ) →
  ∃ ls σ',
    decorate_with_devices device_repo r σ = Ok () σ' ∧
    shelf σ' = shelf σ ∧
    heap σ' !! r = Some (<["devices" := VList ls]> o) ∧
    holds_stripped σ' ls (devices_of v (shelf σ)) ∧
    Forall (λ l, heap σ !! l = None) ls ∧
    ∀ l, l ≠ r → l < length (heap σ) → heap σ' !! l = heap σ !! l.
Proof.
  intros Hr Hid Hall.
  destruct (decorate_with_devices_spec r σ o v Hr Hid Hall)
    as (ls & σ' & Hrun & Hsh & Hobj & Hstr & Hge & Hframe & Hlen).
  exists ls, σ'. split; [done|]. split; [done|]. split; [done|].
  split; [done|]. split; [|done].
  apply Forall_forall. intros l Hl. apply lookup_ge_None. by apply Hge.
Qed.

Lemma decorate_with_devices_general_witness :
  heap (State (shelf house2) [unpickle kitchen]) !! 0
    = Some (unpickle kitchen) ∧
  unpickle kitchen !! "identifier" = Some (VStr "r1") ∧
  all_have device_repo "room_identifier" (shelf house2) ∧
  ∃ ls σ',
    decorate_with_devices device_repo 0
      (State (shelf house2) [unpickle kitchen]) = Ok () σ' ∧
    shelf σ' = shelf house2 ∧
    heap σ' !! 0 = Some (<["devices" := VList ls]> (unpickle kitchen)) ∧
    holds_stripped σ' ls (devices_of (VStr "r1") (shelf house2)).
Proof.
  assert (H1 : heap (State (shelf house2) [unpickle kitchen]) !! 0
               = Some (unpickle kitchen)) by reflexivity.
  assert (H2 : unpickle kitchen !! "identifier" = Some (VStr "r1"))
    by reflexivity.
  assert (H3 : all_have device_repo "room_identifier" (shelf house2))
    by (apply (bool_decide_unpack _); vm_compute; exact I).
  split; [exact H1|]. split; [exact H2|]. split; [exact H3|].
  destruct (decorate_with_devices_general 0 _ _ _ H1 H2 H3)
    as (ls & σ' & Hrun & Hsh & Hobj & Hstr & _).
  exists ls, σ'. auto.
Defined.

(** ** The handlers, further *)

Lemma decorate_with_room_view d σ (D : record) rid :
  heap σ !! d = Some (unpickle D) →
  D !! "room_identifier" = Some (SStr rid) →
  ∃ v σ',
    decorate_with_room room_repo d σ = Ok () σ' ∧
    shelf σ' = shelf σ ∧
    heap σ' !! d =
      Some (delete "room_identifier" (<["room" := v]> (unpickle D))) ∧
    room_view σ' (shelf σ) rid v ∧
    (∀ l0 : loc, v = VRef l0 → (length (heap σ) ≤ l0)%nat) ∧
    (∀ l, l ≠ d → l < length (heap σ) → heap σ' !! l = heap σ !! l) ∧
    (length (heap σ) ≤ length (heap σ'))%nat.
Proof.
  intros Hd HD. pose proof (lookup_lt_Some _ _ _ Hd) as Hlt.
  assert (Hrid : unpickle D !! "room_identifier" = Some (VStr rid))
    by (unfold unpickle; by rewrite lookup_fmap, HD).
  destruct (shelf σ !! (prefix room_repo +:+ rid)) as [R|] eqn:HR.
  - exists (VRef (length (heap σ))). eexists.
    split; [exact (decorate_with_room_found _ _ _ _ rid R Hd Hrid HR)|].
    split; [done|]. cbn [heap].
    split; [apply list_lookup_insert_eq; rewrite length_app; lia|].
    split; [|split; [|split]].
    + unfold room_view. rewrite HR. eexists. split; [done|]. cbn [heap].
      rewrite list_lookup_insert_ne by lia. by apply list_lookup_middle.
    + by intros l0 [= <-].
    + intros l Hne Hl. rewrite list_lookup_insert_ne by done.
      by apply lookup_app_l.
    + rewrite length_insert, length_app. lia.
  - exists VNone. eexists.
    split; [exact (decorate_with_room_absent _ _ _ _ rid Hd Hrid HR)|].
    split; [done|]. cbn [heap].
    split; [by apply list_lookup_insert_eq|].
    split; [|split; [|split]].
    + unfold room_view. by rewrite HR.
    + by intros l0 [=].
    + intros l Hne Hl. by apply list_lookup_insert_ne.
    + by rewrite length_insert.
Qed.

(** X8. [Device.get] of a stored device whose [room_identifier] is a
    string answers 200 with a new object: the device record with its
    [room_identifier] replaced by the embedded room (or [None] when that
    room is not stored).  The shelf is as it was. *)
Theorem Device_get_found (i rid : string) (D : record) (σ : state) :
  shelf σ !! (prefix device_repo +:+ i) = Some D →
  D !! "room_identifier" = Some (SStr rid) →
  ∃ d σ',
    Device_get i σ = Ok (MessageData "Device found" d, 200) σ' ∧
    shelf σ' = shelf σ ∧
    heap σ !! d = None ∧
    device_view σ' (shelf σ) d D.
Proof.
  intros HD Hrid.
  set (σ1 := State (shelf σ) (heap σ ++ [unpickle D])).
  destruct (decorate_with_room_view (length (heap σ)) σ1 D rid)
    as (v & σ' & Hrun & Hsh & Hobj & Hview & _);
    [by apply list_lookup_middle|done|].
  exists (length (heap σ)), σ'. split; [|split; [done|split]].
  - unfold Device_get, bind. rewrite find_spec, HD. fold σ1.
    by rewrite Hrun.
  - by apply lookup_ge_None.
  - by exists rid, v.
Qed.

Lemma Device_get_found_witness :
  shelf house !! (prefix device_repo +:+ "d1") = Some lamp ∧
  lamp !! "room_identifier" = Some (SStr "r1") ∧
  ∃ d σ',
    Device_get "d1" house = Ok (MessageData "Device found" d, 200) σ' ∧
    shelf σ' = shelf house ∧
    heap house !! d = None ∧
    device_view σ' (shelf house) d lamp.
Proof.
  assert (H1 : shelf house !! (prefix device_repo +:+ "d1") = Some lamp)
    by reflexivity.
  assert (H2 : lamp !! "room_identifier" = Some (SStr "r1")) by reflexivity.
  split; [exact H1|]. split; [exact H2|].
  exact (Device_get_found "d1" "r1" lamp house H1 H2).
Defined.

Lemma DeviceList_post_run (args R : record) (i rid : string) (σ : state) :
  args !! "identifier" = Some (SStr i) →
  args !! "room_identifier" = Some (SStr rid) →
  shelf σ !! (prefix room_repo +:+ rid) = Some R →
  ∃ v σ',
    DeviceList_post args σ =
      Ok (MessageData "Device registered"
            (length (heap σ ++ [unpickle R])), 201) σ' ∧
    shelf σ' = <[prefix device_repo +:+ i := args]> (shelf σ) ∧
    heap σ' !! length (heap σ ++ [unpickle R]) =
      Some (delete "room_identifier" (<["room" := v]> (unpickle args))) ∧
    room_view σ' (shelf σ') rid v.
Proof.
  intros Hid Hrid HR.
  set (sh2 := <[prefix device_repo +:+ i := args]> (shelf σ)).
  set (σ3 := State sh2 ((heap σ ++ [unpickle R]) ++ [unpickle args])).
  destruct (decorate_with_room_view (length (heap σ ++ [unpickle R])) σ3
              args rid)
    as (v & σ' & Hrun & Hsh & Hobj & Hview & _);
    [by apply list_lookup_middle|done|].
  exists v, σ'. split; [|split; [done|split; [done|by rewrite Hsh]]].
  unfold DeviceList_post, args_str. rewrite Hrid, Hid.
  unfold bind at 1. unfold ret at 1. unfold bind at 1.
  rewrite find_spec, HR. unfold bind at 1. unfold save. rewrite Hid.
  unfold shelf_setitem. cbn [shelf heap]. unfold bind at 1.
  unfold ret at 1. unfold bind at 1. rewrite find_spec. cbn [shelf heap].
  fold sh2. unfold sh2 at 1. rewrite lookup_insert_eq. fold sh2 σ3.
  unfold bind. by rewrite Hrun.
Qed.

(** X9. [DeviceList.post] with a string identifier [i] and the identifier
    of a stored room answers 201; the shelf it leaves is the one before
    with the posted record under the device key of [i] and no other
    change, and the object in the response is the decorated copy of the
    posted record. *)
Theorem DeviceList_post_registers (args R : record) (i rid : string)
    (σ : state) :
  args !! "identifier" = Some (SStr i) →
  args !! "room_identifier" = Some (SStr rid) →
  shelf σ !! (prefix room_repo +:+ rid) = Some R →
  ∃ d σ',
    DeviceList_post args σ =
      Ok (MessageData "Device registered" d, 201) σ' ∧
    shelf σ' = <[prefix device_repo +:+ i := args]> (shelf σ) ∧
    device_view σ' (shelf σ') d args.
Proof.
  intros Hid Hrid HR.
  destruct (DeviceList_post_run args R i rid σ Hid Hrid HR)
    as (v & σ' & Hrun & Hsh & Hobj & Hview).
  exists (length (heap σ ++ [unpickle R])), σ'.
  split; [done|]. split; [done|]. by exists rid, v.
Qed.

Lemma DeviceList_post_registers_witness :
  fan !! "identifier" = Some (SStr "d2") ∧
  fan !! "room_identifier" = Some (SStr "r1") ∧
  shelf house !! (prefix room_repo +:+ "r1") = Some kitchen ∧
  ∃ d σ',
    DeviceList_post fan house =
      Ok (MessageData "Device registered" d, 201) σ' ∧
    shelf σ' = <[prefix device_repo +:+ "d2" := fan]> (shelf house) ∧
    device_view σ' (shelf σ') d fan.
Proof.
  assert (H1 : fan !! "identifier" = Some (SStr "d2")) by reflexivity.
  assert (H2 : fan !! "room_identifier" = Some (SStr "r1")) by reflexivity.
  assert (H3 : shelf house !! (prefix room_repo +:+ "r1") = Some kitchen)
    by reflexivity.
  split; [exact H1|]. split; [exact H2|]. split; [exact H3|].
  exact (DeviceList_post_registers fan kitchen "d2" "r1" house H1 H2 H3).
Defined.

(** X10. [Device.delete] never raises: for an identifier that is not
    stored it answers 404 and leaves the state as it was; for a stored one
    it answers 204 and removes that device's key, leaving every other key
    of the shelf as it was. *)
Theorem Device_delete_outcome (i : string) (σ : state) :
  (shelf σ !! (prefix device_repo +:+ i) = None ∧
   Device_delete i σ = Ok (Message "Device not found", 404) σ) ∨
  (is_Some (shelf σ !! (prefix device_repo +:+ i)) ∧
   ∃ σ', Device_delete i σ = Ok (Empty, 204) σ' ∧
         shelf σ' !! (prefix device_repo +:+ i) = None ∧
         ∀ k, k ≠ prefix device_repo +:+ i →
              shelf σ' !! k = shelf σ !! k).
Proof.
  destruct (shelf σ !! (prefix device_repo +:+ i)) as [D|] eqn:HD.
  - right. split; [by eexists|].
    rewrite (Device_delete_found _ _ _ HD). eexists. split; [done|].
    cbn [shelf]. split; [apply lookup_delete_eq|].
    intros k Hk. by apply lookup_delete_ne.
  - left. split; [done|]. unfold Device_delete, bind.
    by rewrite find_spec, HD.
Qed.

(** X11. [Room.delete] answers 204 only for a stored room to which no
    device record refers (every device record has a [room_identifier], and
    none is this room's); what it then removes is the room's key and
    nothing else. *)
Theorem Room_delete_safe (rid : string) (σ σ' : state) :
  Room_delete rid σ = Ok (Empty, 204) σ' →
  is_Some (shelf σ !! (prefix room_repo +:+ rid)) ∧
  unreferenced rid (shelf σ) ∧
  shelf σ' = delete (prefix room_repo +:+ rid) (shelf σ).
Proof.
  intros Hrun.
  destruct (shelf σ !! (prefix room_repo +:+ rid)) as [R|] eqn:HR.
  - split; [by eexists|].
    destruct (Room_delete_shelf rid σ) as [Hsame|[Hdel Hun]].
    + exfalso. rewrite (Room_delete_found _ _ _ _ HR eq_refl) in Hrun, Hsame.
      pose proof (find_by_preserving device_repo "room_identifier" (VStr rid)
                    (State (shelf σ) (heap σ ++ [unpickle R]))) as Hsh.
      destruct (find_by _ _ _ _) as [[|d ds] σ2|e σ2];
        cbn [final shelf] in Hsh; [|done|done].
      rewrite final_bind in Hsame. unfold bind in Hrun.
      unfold delete_, shelf_delitem in Hrun, Hsame.
      rewrite Hsh, HR in Hrun, Hsame. cbn [final ret shelf] in Hsame.
      apply (f_equal (λ m : gmap string record,
                        m !! (prefix room_repo +:+ rid))) in Hsame.
      by rewrite lookup_delete_eq, HR in Hsame.
    + split; [done|]. by rewrite Hrun in Hdel.
  - unfold Room_delete, bind in Hrun. by rewrite find_spec, HR in Hrun.
Qed.

Lemma Room_delete_safe_witness :
  Room_delete "r1" (State {[ "room:r1" := kitchen ]} []) =
    Ok (Empty, 204) (State ∅ [unpickle kitchen]) ∧
  is_Some (shelf (State {[ "room:r1" := kitchen ]} [])
             !! (prefix room_repo +:+ "r1")) ∧
  unreferenced "r1" (shelf (State {[ "room:r1" := kitchen ]} [])) ∧
  shelf (State ∅ [unpickle kitchen]) =
    delete (prefix room_repo +:+ "r1")
      (shelf (State {[ "room:r1" := kitchen ]} [])).
Proof.
  assert (H : Room_delete "r1" (State {[ "room:r1" := kitchen ]} []) =
              Ok (Empty, 204) (State ∅ [unpickle kitchen]))
    by (vm_compute; reflexivity).
  split; [exact H|]. exact (Room_delete_safe "r1" _ _ H).
Defined.

Lemma all_have_insert_room field (sh : gmap string record) i (r : record) :
  all_have device_repo field sh →
  all_have device_repo field (<[prefix room_repo +:+ i := r]> sh).
Proof.
  intros Hall. apply map_Forall_insert_2; [|done].
  intros Hp. by rewrite room_key_not_device in Hp.
Qed.

Lemma all_have_insert_room_inv field (sh : gmap string record) i
    (r : record) :
  all_have device_repo field (<[prefix room_repo +:+ i := r]> sh) →
  all_have device_repo field sh.
Proof.
  intros Hall k d Hk Hp. apply (Hall k d); [|done].
  rewrite lookup_insert_ne; [done|]. intros <-.
  by rewrite room_key_not_device in Hp.
Qed.

(** X12. [Room.get] of a stored room, when every device record has a
    [room_identifier], answers 200 with a new object: the room record with
    a [devices] list of new objects holding the device records whose
    [room_identifier] equals the ['identifier'] field of the room record,
    each without its [room_identifier].  Neither the room object nor the
    listed objects were on the heap before.  The shelf is as it was. *)
Theorem Room_get_found (i : string) (R : record) (x : sval) (σ : state) :
  shelf σ !! (prefix room_repo +:+ i) = Some R →
  R !! "identifier" = Some x →
  all_have device_repo "room_identifier" (shelf σ) →
  ∃ r ls σ',
    Room_get i σ = Ok (MessageData "Room found" r, 200) σ' ∧
    shelf σ' = shelf σ ∧
    heap σ !! r = None ∧
    heap σ' !! r = Some (<["devices" := VList ls]> (unpickle R)) ∧
    holds_stripped σ' ls (devices_of (unpickle_val x) (shelf σ)) ∧
    Forall (λ l, heap σ !! l = None) ls.
Proof.
  intros HR Hx Hall.
  set (σ1 := State (shelf σ) (heap σ ++ [unpickle R])).
  destruct (decorate_with_devices_spec (length (heap σ)) σ1 (unpickle R)
              (unpickle_val x))
    as (ls & σ' & Hrun & Hsh & Hobj & Hstr & Hge & _);
    [by apply list_lookup_middle
    |by unfold unpickle; rewrite lookup_fmap, Hx|done|].
  exists (length (heap σ)), ls, σ'.
  split; [|split; [done|split; [by apply lookup_ge_None|]]].
  - unfold Room_get, bind. rewrite find_spec, HR. fold σ1. by rewrite Hrun.
  - split; [done|]. split; [done|].
    apply Forall_forall. intros l Hl. apply lookup_ge_None.
    apply Hge in Hl. cbn [heap σ1] in Hl. rewrite length_app in Hl. lia.
Qed.

Lemma Room_get_found_witness :
  shelf house2 !! (prefix room_repo +:+ "r1") = Some kitchen ∧
  kitchen !! "identifier" = Some (SStr "r1") ∧
  all_have device_repo "room_identifier" (shelf house2) ∧
  ∃ r ls σ',
    Room_get "r1" house2 = Ok (MessageData "Room found" r, 200) σ' ∧
    shelf σ' = shelf house2 ∧
    heap house2 !! r = None ∧
    heap σ' !! r = Some (<["devices" := VList ls]> (unpickle kitchen)) ∧
    holds_stripped σ' ls (devices_of (VStr "r1") (shelf house2)) ∧
    Forall (λ l, heap house2 !! l = None) ls.
Proof.
  assert (H1 : shelf house2 !! (prefix room_repo +:+ "r1") = Some kitchen)
    by reflexivity.
  assert (H2 : kitchen !! "identifier" = Some (SStr "r1")) by reflexivity.
  assert (H3 : all_have device_repo "room_identifier" (shelf house2))
    by (apply (bool_decide_unpack _); vm_compute; exact I).
  split; [exact H1|]. split; [exact H2|]. split; [exact H3|].
  exact (Room_get_found "r1" kitchen (SStr "r1") house2 H1 H2 H3).
Defined.

(** X13. [RoomList.post] with a string identifier [i], when every device
    record has a [room_identifier], answers 201; the shelf it leaves is
    the one before with the posted record under the room key of [i] and no
    other change, and the object in the response is a copy of the posted
    record with a [devices] list of new objects holding the device records
    whose [room_identifier] is [i], each without its [room_identifier];
    neither that object nor the listed ones were on the heap before. *)
Theorem RoomList_post_registers (args : record) (i : string) (σ : state) :
  args !! "identifier" = Some (SStr i) →
  all_have device_repo "room_identifier" (shelf σ) →
  ∃ r ls σ',
    RoomList_post args σ = Ok (MessageData "Room registered" r, 201) σ' ∧
    shelf σ' = <[prefix room_repo +:+ i := args]> (shelf σ) ∧
    heap σ' !! r = Some (<["devices" := VList ls]> (unpickle args)) ∧
    holds_stripped σ' ls (devices_of (VStr i) (shelf σ')) ∧
    heap σ !! r = None ∧
    Forall (λ l, heap σ !! l = None) ls.
Proof.
  intros Hid Hall.
  set (sh2 := <[prefix room_repo +:+ i := args]> (shelf σ)).
  set (σ3 := State sh2 (heap σ ++ [unpickle args])).
  destruct (decorate_with_devices_spec (length (heap σ)) σ3 (unpickle args)
              (VStr i))
    as (ls & σ' & Hrun & Hsh & Hobj & Hstr & Hge & _);
    [by apply list_lookup_middle
    |by unfold unpickle; rewrite lookup_fmap, Hid
    |by apply all_have_insert_room|].
  assert (Hfresh : Forall (λ l : loc, heap σ !! l = None) ls).
  { apply Forall_forall. intros l Hl. apply lookup_ge_None.
    apply Hge in Hl. cbn [heap σ3] in Hl. rewrite length_app in Hl. lia. }
  exists (length (heap σ)), ls, σ'.
  split; [|split; [done|split; [done|split; [by rewrite Hsh|split;
    [by apply lookup_ge_None|done]]]]].
  unfold RoomList_post. unfold bind at 1. unfold save, args_str.
  rewrite Hid. unfold shelf_setitem. unfold bind at 1. unfold ret at 1.
  unfold bind at 1. rewrite find_spec. cbn [shelf heap]. fold sh2.
  unfold sh2 at 1. rewrite lookup_insert_eq. fold sh2 σ3.
  unfold bind. by rewrite Hrun.
Qed.

Lemma RoomList_post_registers_witness :
  kitchen !! "identifier" = Some (SStr "r1") ∧
  all_have device_repo "room_identifier" (shelf house2) ∧
  ∃ r ls σ',
    RoomList_post kitchen house2 =
      Ok (MessageData "Room registered" r, 201) σ' ∧
    shelf σ' = <[prefix room_repo +:+ "r1" := kitchen]> (shelf house2) ∧
    heap σ' !! r = Some (<["devices" := VList ls]> (unpickle kitchen)) ∧
    holds_stripped σ' ls (devices_of (VStr "r1") (shelf σ')) ∧
    heap house2 !! r = None ∧
    Forall (λ l, heap house2 !! l = None) ls.
Proof.
  assert (H1 : kitchen !! "identifier" = Some (SStr "r1")) by reflexivity.
  assert (H2 : all_have device_repo "room_identifier" (shelf house2))
    by (apply (bool_decide_unpack _); vm_compute; exact I).
  split; [exact H1|]. split; [exact H2|].
  exact (RoomList_post_registers kitchen "r1" house2 H1 H2).
Defined.

(** X14. [RoomList.post] writes before it decorates: with a string
    identifier [i] and a device collection in which some record has no
    [room_identifier], it raises [KeyError] for that field, and the posted
    record is nevertheless stored under the room key of [i]. *)
Theorem RoomList_post_stores_then_raises (args : record) (i : string)
    (σ : state) :
  args !! "identifier" = Some (SStr i) →
  ¬ all_have device_repo "room_identifier" (shelf σ) →
  ∃ σ',
    RoomList_post args σ = Raise (KeyError "room_identifier") σ' ∧
    shelf σ' = <[prefix room_repo +:+ i := args]> (shelf σ).
Proof.
  intros Hid Hnot.
  set (sh2 := <[prefix room_repo +:+ i := args]> (shelf σ)).
  set (σ3 := State sh2 (heap σ ++ [unpickle args])).
  assert (Hnot2 : ¬ all_have device_repo "room_identifier" (shelf σ3)).
  { intros Hall. apply Hnot. by apply all_have_insert_room_inv in Hall. }
  apply map_not_Forall in Hnot2 as (k & r & Hk & Hbad); [|apply _].
  assert (Hp : String.prefix (prefix device_repo) k = true).
  { destruct (String.prefix (prefix device_repo) k); [done|].
    exfalso. apply Hbad. discriminate. }
  assert (Hf : r !! "room_identifier" = None).
  { destruct (r !! "room_identifier") eqn:E; [|done].
    exfalso. apply Hbad. eauto. }
  exists (scanned device_repo σ3). split; [|done].
  unfold RoomList_post. unfold bind at 1. unfold save, args_str.
  rewrite Hid. unfold shelf_setitem. unfold bind at 1. unfold ret at 1.
  unfold bind at 1. rewrite find_spec. cbn [shelf heap]. fold sh2.
  unfold sh2 at 1. rewrite lookup_insert_eq. fold sh2 σ3.
  unfold bind at 1. unfold decorate_with_devices. unfold bind at 1.
  unfold obj_getitem. cbn [heap σ3].
  rewrite list_lookup_middle by done.
  unfold unpickle at 1. rewrite lookup_fmap, Hid.
  cbn [fmap option_fmap option_map unpickle_val].
  unfold bind at 1.
  by rewrite (find_by_raise device_repo _ (VStr i) σ3 k r Hp Hk Hf).
Qed.

Lemma RoomList_post_stores_then_raises_witness :
  kitchen !! "identifier" = Some (SStr "r1") ∧
  ¬ all_have device_repo "room_identifier" (shelf lost_and_found) ∧
  ∃ σ',
    RoomList_post kitchen lost_and_found =
      Raise (KeyError "room_identifier") σ' ∧
    shelf σ' = <[prefix room_repo +:+ "r1" := kitchen]> (shelf lost_and_found).
Proof.
  assert (H1 : kitchen !! "identifier" = Some (SStr "r1")) by reflexivity.
  assert (H2 : ¬ all_have device_repo "room_identifier"
                 (shelf lost_and_found))
    by (apply (bool_decide_unpack _); vm_compute; exact I).
  split; [exact H1|]. split; [exact H2|].
  exact (RoomList_post_stores_then_raises kitchen "r1" lost_and_found H1 H2).
Defined.

(** ** The list handlers *)

Lemma room_view_frame σ1 σ' (sh : gmap string record) rid v :
  room_view σ1 sh rid v →
  (∀ l0, v = VRef l0 → heap σ' !! l0 = heap σ1 !! l0) →
  room_view σ' sh rid v.
Proof.
  unfold room_view. intros Hview Hsame.
  destruct (sh !! (prefix room_repo +:+ rid)) as [R|]; [|done].
  destruct Hview as (l & -> & Hl). exists l. split; [done|].
  by rewrite Hsame.
Qed.

Lemma decorate_all_with_room_spec ls (Ds : list record) σ :
  holds σ ls Ds →
  NoDup ls →
  Forall names_room Ds →
  ∃ σ', decorate_all_with_room ls σ = Ok () σ' ∧
        shelf σ' = shelf σ ∧
        Forall2 (device_view σ' (shelf σ)) ls Ds ∧
        (∀ l : loc, l ∉ ls → l < length (heap σ) →
                    heap σ' !! l = heap σ !! l) ∧
        (length (heap σ) ≤ length (heap σ'))%nat.
Proof.
  revert Ds σ. induction ls as [|l ls IH]; intros Ds σ Hholds Hnd Hall.
  - apply Forall2_nil_inv_l in Hholds as ->. exists σ.
    split; [done|]. split; [done|]. split; [constructor|]. split; done.
  - apply Forall2_cons_inv_l in Hholds as (D & Ds' & Hl & Hrest & ->).
    apply NoDup_cons in Hnd as [Hnotin Hnd].
    apply Forall_cons in Hall as [HD Hall].
    unfold names_room in HD.
    destruct (D !! "room_identifier") as [[|rid]|] eqn:Hrid; try done.
    destruct (decorate_with_room_view l σ D rid Hl Hrid)
      as (v & σ1 & Hrun1 & Hsh1 & Hobj1 & Hview1 & Hfresh1 & Hframe1 & Hlen1).
    assert (Hlt : ∀ l' : loc, l' ∈ ls → l' < length (heap σ)).
    { intros l' Hin. apply list_elem_of_lookup in Hin as [j Hj].
      destruct (Forall2_lookup_l _ _ _ _ _ Hrest Hj) as (D' & _ & HD').
      by apply lookup_lt_Some in HD'. }
    destruct (IH Ds' σ1) as (σ' & Hrun & Hsh & Hviews & Hframe & Hlen);
      [|done|done|].
    { apply (Forall2_impl_elem _ _ _ _ Hrest). intros l' D' Hin HD'.
      rewrite Hframe1; [done| |by apply Hlt]. intros ->. done. }
    exists σ'. split; [|split; [|split; [|split]]].
    + simpl. unfold bind. by rewrite Hrun1.
    + by rewrite Hsh.
    + constructor; [|by rewrite <- Hsh1].
      exists rid, v. split; [done|].
      pose proof (lookup_lt_Some _ _ _ Hobj1) as Hl1. split.
      * by rewrite (Hframe l Hnotin Hl1).
      * apply (room_view_frame σ1); [done|]. intros l0 ->.
        unfold room_view in Hview1.
        destruct (shelf σ !! (prefix room_repo +:+ rid)) as [R|];
          [|done].
        destruct Hview1 as (l0' & [= <-] & Hl0).
        apply Hframe; [|by apply lookup_lt_Some in Hl0].
        intros Hin. apply Hlt in Hin.
        specialize (Hfresh1 l0 eq_refl). lia.
    + intros l0 Hl0 Hlt0. apply not_elem_of_cons in Hl0 as [Hne Hl0].
      rewrite Hframe; [by apply Hframe1|done|lia].
    + lia.
Qed.

(** X15. [DeviceList.get], when every device record has a string
    [room_identifier], answers 200 with one new object per device record
    of the shelf (the objects are distinct and none was on the heap
    before), each holding its record decorated: the [room_identifier]
    replaced by the embedded room, or by [None] when that room is not
    stored.  The shelf is as it was. *)
Theorem DeviceList_get_all (σ : state) :
  all_name_room (shelf σ) →
  ∃ ls σ',
    DeviceList_get σ = Ok (MessageList "Retrieved all devices" ls, 200) σ' ∧
    shelf σ' = shelf σ ∧
    Forall2 (device_view σ' (shelf σ)) ls
      (collection device_repo (shelf σ)).*2 ∧
    NoDup ls ∧
    Forall (λ l, heap σ !! l = None) ls.
Proof.
  intros Hall.
  set (c := collection device_repo (shelf σ)).
  destruct (decorate_all_with_room_spec
              (seq (length (heap σ)) (length c.*2)) c.*2
              (scanned device_repo σ))
    as (σ' & Hrun & Hsh & Hviews & _).
  - by apply (holds_alloc (heap σ)).
  - apply NoDup_seq.
  - apply Forall_fmap, Forall_forall. intros [k D] Hin.
    apply elem_of_collection in Hin as [Hp Hk]. by apply (Hall k).
  - eexists _, σ'. split; [|split; [done|split; [exact Hviews|split]]].
    + unfold scanned in Hrun. fold c in Hrun.
      unfold DeviceList_get, bind. rewrite find_all_spec. fold c.
      rewrite <- (length_fmap snd c). by rewrite Hrun.
    + apply NoDup_seq.
    + apply Forall_forall. intros l Hl. apply elem_of_seq in Hl.
      apply lookup_ge_None. lia.
Qed.

Lemma DeviceList_get_all_witness :
  all_name_room (shelf house2) ∧
  ∃ ls σ',
    DeviceList_get house2 =
      Ok (MessageList "Retrieved all devices" ls, 200) σ' ∧
    shelf σ' = shelf house2 ∧
    Forall2 (device_view σ' (shelf house2)) ls
      (collection device_repo (shelf house2)).*2 ∧
    NoDup ls ∧
    Forall (λ l, heap house2 !! l = None) ls.
Proof.
  assert (H : all_name_room (shelf house2))
    by (apply (bool_decide_unpack _); vm_compute; exact I).
  split; [exact H|]. exact (DeviceList_get_all house2 H).
Defined.

Lemma decorate_all_with_devices_spec σ0 ls (Rs : list record) σ :
  (length (heap σ0) ≤ length (heap σ))%nat →
  holds σ ls Rs →
  NoDup ls →
  Forall (λ R : record, is_Some (R !! "identifier")) Rs →
  all_have device_repo "room_identifier" (shelf σ) →
  ∃ σ', decorate_all_with_devices ls σ = Ok () σ' ∧
        shelf σ' = shelf σ ∧
        Forall2 (room_listing σ0 σ' (shelf σ)) ls Rs ∧
        (∀ l : loc, l ∉ ls → l < length (heap σ) →
                    heap σ' !! l = heap σ !! l) ∧
        (length (heap σ) ≤ length (heap σ'))%nat.
Proof.
  revert Rs σ.
  induction ls as [|l ls IH]; intros Rs σ Hlen0 Hholds Hnd Hids Hall.
  - apply Forall2_nil_inv_l in Hholds as ->. exists σ.
    split; [done|]. split; [done|]. split; [constructor|]. split; done.
  - apply Forall2_cons_inv_l in Hholds as (R & Rs' & Hl & Hrest & ->).
    apply NoDup_cons in Hnd as [Hnotin Hnd].
    apply Forall_cons in Hids as [[x Hx] Hids].
    assert (Hid : unpickle R !! "identifier" = Some (unpickle_val x))
      by (unfold unpickle; by rewrite lookup_fmap, Hx).
    destruct (decorate_with_devices_spec l σ _ _ Hl Hid Hall)
      as (ds & σ1 & Hrun1 & Hsh1 & Hobj1 & Hstr1 & Hge1 & Hframe1 & Hlen1).
    assert (Hlt : ∀ l' : loc, l' ∈ ls → l' < length (heap σ)).
    { intros l' Hin. apply list_elem_of_lookup in Hin as [j Hj].
      destruct (Forall2_lookup_l _ _ _ _ _ Hrest Hj) as (R' & _ & HR').
      by apply lookup_lt_Some in HR'. }
    destruct (IH Rs' σ1) as (σ' & Hrun & Hsh & Hviews & Hframe & Hlen);
      [lia| |done|done|by rewrite Hsh1|].
    { apply (Forall2_impl_elem _ _ _ _ Hrest). intros l' R' Hin HR'.
      rewrite Hframe1; [done| |by apply Hlt]. intros ->. done. }
    exists σ'. split; [|split; [|split; [|split]]].
    + simpl. unfold bind. by rewrite Hrun1.
    + by rewrite Hsh.
    + constructor; [|by rewrite <- Hsh1].
      exists x. split; [done|]. exists ds.
      pose proof (lookup_lt_Some _ _ _ Hobj1) as Hl1.
      split; [|split].
      * by rewrite (Hframe l Hnotin Hl1).
      * apply (Forall2_impl_elem _ _ _ _ Hstr1). intros l0 D Hin HD.
        rewrite Hframe; [done| |by apply lookup_lt_Some in HD].
        intros Hin'. apply Hlt in Hin'. apply Hge1 in Hin. lia.
      * apply Forall_forall. intros l0 Hin. apply lookup_ge_None.
        apply Hge1 in Hin. lia.
    + intros l0 Hl0 Hlt0. apply not_elem_of_cons in Hl0 as [Hne Hl0].
      rewrite Hframe; [by apply Hframe1|done|lia].
    + lia.
Qed.

(** X16. [RoomList.get], when every room record has an ['identifier']
    and every device record a [room_identifier], answers 200 with one new
    object per room record of the shelf (the objects are distinct and none
    was on the heap before), each holding its record with a [devices] list
    of objects that were not on the heap before either: the device records
    whose [room_identifier] equals the room's ['identifier'], each without
    its [room_identifier].  The shelf is as it was. *)
Theorem RoomList_get_all (σ : state) :
  all_have room_repo "identifier" (shelf σ) →
  all_have device_repo "room_identifier" (shelf σ) →
  ∃ ls σ',
    RoomList_get σ = Ok (MessageList "Retrieved all rooms" ls, 200) σ' ∧
    shelf σ' = shelf σ ∧
    Forall2 (room_listing σ σ' (shelf σ)) ls
      (collection room_repo (shelf σ)).*2 ∧
    NoDup ls ∧
    Forall (λ l, heap σ !! l = None) ls.
Proof.
  intros Hids Hall.
  set (c := collection room_repo (shelf σ)).
  destruct (decorate_all_with_devices_spec σ
              (seq (length (heap σ)) (length c.*2)) c.*2
              (scanned room_repo σ))
    as (σ' & Hrun & Hsh & Hviews & _).
  - cbn [heap scanned]. rewrite length_app. lia.
  - by apply (holds_alloc (heap σ)).
  - apply NoDup_seq.
  - apply Forall_fmap, Forall_forall. intros [k R] Hin.
    apply elem_of_collection in Hin as [Hp Hk]. by apply (Hids k).
  - done.
  - eexists _, σ'. split; [|split; [done|split; [exact Hviews|split]]].
    + unfold scanned in Hrun. fold c in Hrun.
      unfold RoomList_get, bind. rewrite find_all_spec. fold c.
      rewrite <- (length_fmap snd c). by rewrite Hrun.
    + apply NoDup_seq.
    + apply Forall_forall. intros l Hl. apply elem_of_seq in Hl.
      apply lookup_ge_None. lia.
Qed.

Lemma RoomList_get_all_witness :
  all_have room_repo "identifier" (shelf house2) ∧
  all_have device_repo "room_identifier" (shelf house2) ∧
  ∃ ls σ',
    RoomList_get house2 =
      Ok (MessageList "Retrieved all rooms" ls, 200) σ' ∧
    shelf σ' = shelf house2 ∧
    Forall2 (room_listing house2 σ' (shelf house2)) ls
      (collection room_repo (shelf house2)).*2 ∧
    NoDup ls ∧
    Forall (λ l, heap house2 !! l = None) ls.
Proof.
  assert (H1 : all_have room_repo "identifier" (shelf house2))
    by (apply (bool_decide_unpack _); vm_compute; exact I).
  assert (H2 : all_have device_repo "room_identifier" (shelf house2))
    by (apply (bool_decide_unpack _); vm_compute; exact I).
  split; [exact H1|]. split; [exact H2|].
  exact (RoomList_get_all house2 H1 H2).
Defined.

(** ** Requests in sequence *)

(** X17. Registering a device under an identifier that is free and then
    deleting it leaves the shelf as it was before the two requests. *)
Theorem post_then_delete_device (args R : record) (i rid : string)
    (σ : state) :
  args !! "identifier" = Some (SStr i) →
  args !! "room_identifier" = Some (SStr rid) →
  shelf σ !! (prefix room_repo +:+ rid) = Some R →
  shelf σ !! (prefix device_repo +:+ i) = None →
  shelf (serve [POST_devices args; DELETE_device i] σ) = shelf σ.
Proof.
  intros Hid Hrid HR Hfree. cbn [serve foldl handle].
  destruct (DeviceList_post_run args R i rid σ Hid Hrid HR)
    as (v & σ1 & Hpost & Hsh1 & _).
  rewrite Hpost. cbn [final].
  assert (Hthere : shelf σ1 !! (prefix device_repo +:+ i) = Some args)
    by (rewrite Hsh1; apply lookup_insert_eq).
  rewrite (Device_delete_found _ _ _ Hthere). cbn [final shelf].
  rewrite Hsh1, delete_insert_eq. by apply delete_id.
Qed.

Lemma post_then_delete_device_witness :
  fan !! "identifier" = Some (SStr "d2") ∧
  fan !! "room_identifier" = Some (SStr "r1") ∧
  shelf house !! (prefix room_repo +:+ "r1") = Some kitchen ∧
  shelf house !! (prefix device_repo +:+ "d2") = None ∧
  shelf (serve [POST_devices fan; DELETE_device "d2"] house) = shelf house.
Proof.
  assert (H1 : fan !! "identifier" = Some (SStr "d2")) by reflexivity.
  assert (H2 : fan !! "room_identifier" = Some (SStr "r1")) by reflexivity.
  assert (H3 : shelf house !! (prefix room_repo +:+ "r1") = Some kitchen)
    by reflexivity.
  assert (H4 : shelf house !! (prefix device_repo +:+ "d2") = None)
    by reflexivity.
  split; [exact H1|]. split; [exact H2|]. split; [exact H3|].
  split; [exact H4|].
  exact (post_then_delete_device fan kitchen "d2" "r1" house H1 H2 H3 H4).
Defined.

Lemma save_other_key repo (r : record) j σ k :
  r !! "identifier" = Some (SStr j) →
  k ≠ prefix repo +:+ j →
  ∃ σ', save repo r σ = Ok () σ' ∧ heap σ' = heap σ ∧
        shelf σ' !! k = shelf σ !! k.
Proof.
  intros Hid Hk. unfold save. rewrite Hid. unfold shelf_setitem.
  eexists. split; [done|]. split; [done|]. cbn [shelf].
  by apply lookup_insert_ne.
Qed.

(** X18. Records with different identifiers do not clash within a
    repository: after [save] of [r1] under [i] and then of [r2] under
    another identifier [j], [find(i)] still returns an object holding
    [r1]. *)
Theorem save_distinct_identifiers (repo : Repository) (r1 r2 : record)
    (i j : string) (σ : state) :
  r1 !! "identifier" = Some (SStr i) →
  r2 !! "identifier" = Some (SStr j) →
  i ≠ j →
  ∃ σ1 l σ2,
    (save repo r1;; save repo r2) σ = Ok () σ1 ∧
    find repo i σ1 = Ok (Some l) σ2 ∧
    heap σ2 !! l = Some (unpickle r1).
Proof.
  intros H1 H2 Hne.
  assert (Hk : prefix repo +:+ i ≠ prefix repo +:+ j)
    by (intros Heq; by apply app_inj_prefix in Heq).
  set (σa := State (<[prefix repo +:+ i := r1]> (shelf σ)) (heap σ)).
  destruct (save_other_key repo r2 j σa (prefix repo +:+ i) H2 Hk)
    as (σ1 & Hrun & Hheap & Hsame).
  exists σ1. eexists _, _. split; [|split].
  - unfold bind. unfold save at 1. rewrite H1. unfold shelf_setitem.
    fold σa. exact Hrun.
  - rewrite find_spec, Hsame. cbn [shelf σa]. by rewrite lookup_insert_eq.
  - cbn [heap]. by apply list_lookup_middle.
Qed.

Lemma save_distinct_identifiers_witness :
  lamp !! "identifier" = Some (SStr "d1") ∧
  fan !! "identifier" = Some (SStr "d2") ∧
  "d1" ≠ "d2" ∧
  ∃ σ1 l σ2,
    (save device_repo lamp;; save device_repo fan) empty_state = Ok () σ1 ∧
    find device_repo "d1" σ1 = Ok (Some l) σ2 ∧
    heap σ2 !! l = Some (unpickle lamp).
Proof.
  assert (H1 : lamp !! "identifier" = Some (SStr "d1")) by reflexivity.
  assert (H2 : fan !! "identifier" = Some (SStr "d2")) by reflexivity.
  assert (H3 : "d1" ≠ "d2") by discriminate.
  split; [exact H1|]. split; [exact H2|]. split; [exact H3|].
  exact (save_distinct_identifiers device_repo lamp fan "d1" "d2"
           empty_state H1 H2 H3).
Defined.

(** X19. A GET never writes: whatever they answer and whether or not they
    raise, [DeviceList.get], [Device.get], [RoomList.get] and [Room.get]
    leave the shelf as it was. *)
Theorem get_leaves_shelf (i : string) (σ : state) :
  shelf (handle GET_devices σ) = shelf σ ∧
  shelf (handle (GET_device i) σ) = shelf σ ∧
  shelf (handle GET_rooms σ) = shelf σ ∧
  shelf (handle (GET_room i) σ) = shelf σ.
Proof.
  cbn [handle]. split; [apply DeviceList_get_preserving|].
  split; [apply Device_get_preserving|].
  split; [apply RoomList_get_preserving|apply Room_get_preserving].
Qed.

(** X20. A request changes at most one key of the shelf, whatever it
    answers and whether or not it raises; a request on devices changes no
    key under [room:], and a request on rooms changes no key under
    [device:]. *)
Theorem handle_frame (rq : request) (σ : state) :
  (∃ key, ∀ k, k ≠ key → shelf (handle rq σ) !! k = shelf σ !! k) ∧
  match rq with
  | GET_devices | POST_devices _ | GET_device _ | DELETE_device _ =>
      ∀ k, String.prefix (prefix room_repo) k = true →
           shelf (handle rq σ) !! k = shelf σ !! k
  | GET_rooms | POST_rooms _ | GET_room _ | DELETE_room _ =>
      ∀ k, String.prefix (prefix device_repo) k = true →
           shelf (handle rq σ) !! k = shelf σ !! k
  end.
Proof.
  assert (Hdev : ∀ i k, String.prefix (prefix room_repo) k = true →
                        k ≠ prefix device_repo +:+ i).
  { intros i k Hp ->. by rewrite device_key_not_room in Hp. }
  assert (Hroom : ∀ i k, String.prefix (prefix device_repo) k = true →
                         k ≠ prefix room_repo +:+ i).
  { intros i k Hp ->. by rewrite room_key_not_device in Hp. }
  destruct rq as [|args|i|i| |args|i|i]; cbn [handle].
  - rewrite DeviceList_get_preserving. split; [by exists ""|done].
  - destruct (DeviceList_post_shelf args σ)
      as [->|(i & rid & _ & _ & _ & ->)]; [split; [by exists ""|done]|].
    split.
    + exists (prefix device_repo +:+ i). intros k Hk.
      by apply lookup_insert_ne.
    + intros k Hp. apply lookup_insert_ne. symmetry. by apply Hdev.
  - rewrite Device_get_preserving. split; [by exists ""|done].
  - destruct (Device_delete_shelf i σ) as [->| ->];
      [split; [by exists ""|done]|].
    split.
    + exists (prefix device_repo +:+ i). intros k Hk.
      by apply lookup_delete_ne.
    + intros k Hp. apply lookup_delete_ne. symmetry. by apply Hdev.
  - rewrite RoomList_get_preserving. split; [by exists ""|done].
  - destruct (RoomList_post_shelf args σ) as [->|(i & _ & ->)];
      [split; [by exists ""|done]|].
    split.
    + exists (prefix room_repo +:+ i). intros k Hk.
      by apply lookup_insert_ne.
    + intros k Hp. apply lookup_insert_ne. symmetry. by apply Hroom.
  - rewrite Room_get_preserving. split; [by exists ""|done].
  - destruct (Room_delete_shelf i σ) as [->|[-> _]];
      [split; [by exists ""|done]|].
    split.
    + exists (prefix room_repo +:+ i). intros k Hk.
      by apply lookup_delete_ne.
    + intros k Hp. apply lookup_delete_ne. symmetry. by apply Hroom.
Qed.

(** X21. A POST whose ['identifier'] is missing or [None] stores nothing:
    [DeviceList.post] and [RoomList.post] leave the shelf as it was. *)
Theorem post_without_identifier (args : record) (σ : state) :
  (∀ i, args !! "identifier" ≠ Some (SStr i)) →
  shelf (handle (POST_devices args) σ) = shelf σ ∧
  shelf (handle (POST_rooms args) σ) = shelf σ.
Proof.
  intros Hno. cbn [handle]. split.
  - destruct (DeviceList_post_shelf args σ)
      as [->|(i & rid & Hid & _)]; [done|]. by destruct (Hno i).
  - destruct (RoomList_post_shelf args σ) as [->|(i & Hid & _)]; [done|].
    by destruct (Hno i).
Qed.

Lemma post_without_identifier_witness :
  (∀ i, (<["identifier" := SNone]> lamp) !! "identifier" ≠ Some (SStr i)) ∧
  shelf (handle (POST_devices (<["identifier" := SNone]> lamp)) house)
    = shelf house ∧
  shelf (handle (POST_rooms (<["identifier" := SNone]> lamp)) house)
    = shelf house.
Proof.
  assert (H : ∀ i, (<["identifier" := SNone]> lamp) !! "identifier"
                   ≠ Some (SStr i)) by (intros i; discriminate).
  split; [exact H|].
  exact (post_without_identifier (<["identifier" := SNone]> lamp) house H).
Defined.
